(** * univ_eloued_scraper: a shallow embedding and its specification

    The scraper of [univ_eloued_scraper.py] is embedded function by
    function.  Python [str] values are sequences of Unicode code points,
    the parsed page is a tree of tags and text, the [seen] set of
    [extract_links] is a finite set, exceptions are [None] in an option
    monad, and the crawl loop threads the state of the network explicitly.

    Library code the scraper calls ([re], [datetime], [bs4],
    [urllib.parse], [requests]) is not part of the repository.  [re],
    [str] and [datetime] are modelled here after CPython 3.11; URL
    resolution and page fetching are interfaces (type classes) the model
    is parametric in. *)

From Stdlib Require Import NArith ZArith Lia Ascii String List.
From stdpp Require Import base option list gmap.

Local Open Scope N_scope.

(** A Python [str]: the sequence of its code points. *)
Abbreviation str := (list N).

(** ** Python strings *)
Module PyStr.

(** Decoding of a UTF-8 source literal into code points, so that the
    literals of the Python file can be written as they are there. *)
Fixpoint utf8_decode (bs : list N) : str :=
  match bs with
  | [] => []
  | b :: rest =>
      if b <? 128 then b :: utf8_decode rest
      else if b <? 224 then
        match rest with
        | b1 :: r => ((b - 192) * 64 + (b1 - 128)) :: utf8_decode r
        | _ => []
        end
      else if b <? 240 then
        match rest with
        | b1 :: b2 :: r =>
            ((b - 224) * 4096 + (b1 - 128) * 64 + (b2 - 128)) :: utf8_decode r
        | _ => []
        end
      else
        match rest with
        | b1 :: b2 :: b3 :: r =>
            ((b - 240) * 262144 + (b1 - 128) * 4096 + (b2 - 128) * 64 + (b3 - 128))
              :: utf8_decode r
        | _ => []
        end
  end.

Definition py (s : string) : str :=
  utf8_decode (List.map N_of_ascii (list_ascii_of_string s)).

Definition chr (s : string) : N :=
  match py s with c :: _ => c | [] => 0 end.

Definition str_eqb (a b : str) : bool := bool_decide (a = b).

(** [str.isspace] on one code point, which is also the class [\s] of
    [re] on [str] patterns (Unicode 14, CPython 3.11). *)
Definition isspace (c : N) : bool :=
  ((9 <=? c) && (c <=? 13)) || ((28 <=? c) && (c <=? 32))
  || (c =? 133) || (c =? 160) || (c =? 5760)
  || ((8192 <=? c) && (c <=? 8202))
  || (c =? 8232) || (c =? 8233) || (c =? 8239) || (c =? 8287) || (c =? 12288).

(** The code points of decimal digit zero in every script: each is
    followed by the digits one to nine of its script. *)
Definition decimal_zeros : list N :=
  [48; 1632; 1776; 1984; 2406; 2534; 2662; 2790; 2918; 3046; 3174; 3302;
   3430; 3558; 3664; 3792; 3872; 4160; 4240; 6112; 6160; 6470; 6608; 6784;
   6800; 6992; 7088; 7232; 7248; 42528; 43216; 43264; 43472; 43504; 43600;
   44016; 65296; 66720; 68912; 69734; 69872; 69942; 70096; 70384; 70736;
   70864; 71248; 71360; 71472; 71904; 72016; 72784; 73040; 73120; 92768;
   92864; 93008; 120782; 120792; 120802; 120812; 120822; 123200; 123632;
   125264; 130032].

(** The decimal value of a code point ([unicodedata.decimal]); the
    class [\d] of [re] is the code points that have one. *)
Definition decimal (c : N) : option N :=
  match List.find (fun z => (z <=? c) && (c <? z + 10)) decimal_zeros with
  | Some z => Some (c - z)
  | None => None
  end.

Definition isdecimal (c : N) : bool :=
  match decimal c with Some _ => true | None => false end.

Definition is_ascii_digit (c : N) : bool := (48 <=? c) && (c <=? 57).

Definition is_ascii_alpha (c : N) : bool :=
  ((65 <=? c) && (c <=? 90)) || ((97 <=? c) && (c <=? 122)).

(** [int(s)] on a string [s] of decimal digits, as a group [\d+] of a
    match is: the conversion cannot fail on it. *)
Definition int_of_digits (s : str) : N :=
  fold_left (fun acc c => acc * 10 + default 0 (decimal c)) s 0.

Fixpoint lstrip_by (p : N -> bool) (s : str) : str :=
  match s with
  | [] => []
  | c :: t => if p c then lstrip_by p t else s
  end.

Definition rstrip_by (p : N -> bool) (s : str) : str :=
  rev (lstrip_by p (rev s)).

(** [s.strip()] *)
Definition strip (s : str) : str := rstrip_by isspace (lstrip_by isspace s).

(** [int(s)]: whitespace around the number is ignored, then come one or
    more decimal digits; [None] is the [ValueError].  Signs and
    underscores do not occur in the strings converted here. *)
Definition int (s : str) : option N :=
  match strip s with
  | [] => None
  | t => if forallb isdecimal t then Some (int_of_digits t) else None
  end.

(** [s.rstrip(chars)] for a one-character [chars]. *)
Definition rstrip_char (c : N) (s : str) : str := rstrip_by (N.eqb c) s.

(** [s.replace(old, new)] for a one-character [old]. *)
Definition replace_char (old : N) (new : str) (s : str) : str :=
  flat_map (fun c => if c =? old then new else [c]) s.

Fixpoint startswith (s prefix : str) : bool :=
  match prefix, s with
  | [], _ => true
  | p :: ps, c :: cs => (c =? p) && startswith cs ps
  | _ :: _, [] => false
  end.

(** [s.endswith(suffix)] *)
Definition endswith (s suffix : str) : bool := startswith (rev s) (rev suffix).

(** [sub in s] *)
Fixpoint contains (sub s : str) : bool :=
  startswith s sub || match s with [] => false | _ :: t => contains sub t end.

(** Lower case of an ASCII letter; other code points are kept.  The
    scraper lowers a text only to look for ["next"] and the arrow in
    it, and no code point outside ASCII has a lower case that contains
    one of these letters. *)
Definition lower_char (c : N) : N :=
  if (65 <=? c) && (c <=? 90) then c + 32 else c.

Definition lower (s : str) : str := List.map lower_char s.

(** [str.split()]: the maximal runs of non-whitespace code points. *)
Fixpoint split_acc (cur : str) (s : str) : list str :=
  match s with
  | [] => match cur with [] => [] | _ => [rev cur] end
  | c :: t =>
      if isspace c
      then match cur with [] => split_acc [] t | _ => rev cur :: split_acc [] t end
      else split_acc (c :: cur) t
  end.

Definition split (s : str) : list str := split_acc [] s.

(** Decimal rendering with at least [width] digits, zero padded. *)
Fixpoint digits_acc (fuel : nat) (n : N) (acc : str) : str :=
  match fuel with
  | O => acc
  | S f =>
      let acc' := (48 + n mod 10) :: acc in
      if n / 10 =? 0 then acc' else digits_acc f (n / 10) acc'
  end.

Definition zfill (width : nat) (n : N) : str :=
  let ds := digits_acc (S (N.to_nat (N.log2 n))) n [] in
  List.repeat 48 (width - length ds) ++ ds.

End PyStr.
Import PyStr.


(** ** Regular expressions: the backtracking matcher of [re] *)
Module Re.

(** The patterns of the scraper and of [_strptime] repeat character
    classes only, so repetition is over a class. *)
Inductive regex : Type :=
| Eps : regex
| Chr (c : N) : regex
| Cls (p : N -> bool) : regex
| Rep (p : N -> bool) (lo : nat) (hi : option nat) : regex
| Seq (r1 r2 : regex) : regex
| Alt (r1 r2 : regex) : regex
| Grp (r : regex) : regex.

(** A literal string. *)
Fixpoint lit (s : str) : regex :=
  match s with
  | [] => Eps
  | [c] => Chr c
  | c :: t => Seq (Chr c) (lit t)
  end.

(** [a|b|...] *)
Fixpoint alts (rs : list regex) : regex :=
  match rs with
  | [] => Cls (fun _ => false)
  | [r] => r
  | r :: t => Alt r (alts t)
  end.

(** Whether the code point [x] of the text matches the literal [c] of
    the pattern.  With [re.IGNORECASE] a text code point matches when its
    lower case is that of the literal; the dotted capital and the dotless
    small i also match the letter i, the long s matches s, and the Kelvin
    sign matches k.  The literals of the patterns below are ASCII and
    Arabic letters, which have no other case variants. *)
Definition chr_match (icase : bool) (c x : N) : bool :=
  if icase then
    (lower_char x =? lower_char c)
    || ((lower_char c =? 105) && ((x =? 304) || (x =? 305)))
    || ((lower_char c =? 115) && (x =? 383))
    || ((lower_char c =? 107) && (x =? 8490))
  else x =? c.

Definition pred_hi (hi : option nat) : option nat :=
  match hi with Some h => Some (Nat.pred h) | None => None end.

Definition may_take (hi : option nat) : bool :=
  match hi with Some O => false | _ => true end.

(** Greedy repetition of a class: take as many as allowed, give back one
    at a time while the continuation fails. *)
Fixpoint rep_match {A} (p : N -> bool) (lo : nat) (hi : option nat) (s : str)
    (k : str -> option A) : option A :=
  let stop := match lo with O => k s | S _ => None end in
  match s with
  | x :: t =>
      if p x && may_take hi then
        match rep_match p (Nat.pred lo) (pred_hi hi) t k with
        | Some v => Some v
        | None => stop
        end
      else stop
  | [] => stop
  end.

(** Matching at the head of [s], in continuation-passing style: [k] gets
    the groups closed so far and the rest of the text, and its failure
    makes the matcher backtrack. *)
Fixpoint rmatch {A} (icase : bool) (r : regex) (s : str) (caps : list str)
    (k : list str -> str -> option A) : option A :=
  match r with
  | Eps => k caps s
  | Chr c =>
      match s with
      | x :: t => if chr_match icase c x then k caps t else None
      | [] => None
      end
  | Cls p =>
      match s with
      | x :: t => if p x then k caps t else None
      | [] => None
      end
  | Rep p lo hi => rep_match p lo hi s (k caps)
  | Seq r1 r2 =>
      rmatch icase r1 s caps (fun caps' s' => rmatch icase r2 s' caps' k)
  | Alt r1 r2 =>
      match rmatch icase r1 s caps k with
      | Some v => Some v
      | None => rmatch icase r2 s caps k
      end
  | Grp r1 =>
      rmatch icase r1 s caps
        (fun caps' s' => k (caps' ++ [take (length s - length s') s]) s')
  end.

(** A match object: [group(0)], the numbered groups, and the text after
    the match. *)
Record match_obj : Type := MatchObj {
  group0 : str;
  groups : list str;
  after : str
}.

Definition group (m : match_obj) (i : nat) : str :=
  match i with
  | O => group0 m
  | S j => nth j (groups m) []
  end.

(** [pattern.match(s)] *)
Definition re_match (icase : bool) (r : regex) (s : str) : option match_obj :=
  rmatch icase r s []
    (fun caps rest => Some (MatchObj (take (length s - length rest) s) caps rest)).

(** [re.search(pattern, s)]: the match at the leftmost position that has one. *)
Fixpoint search (icase : bool) (r : regex) (s : str) : option match_obj :=
  match re_match icase r s with
  | Some m => Some m
  | None =>
      match s with
      | [] => None
      | _ :: t => search icase r t
      end
  end.

(** [re.sub(pattern, repl, s)] for a replacement without group
    references.  [skip] counts the code points of the current match that
    are still to be passed over. *)
Fixpoint sub_from (r : regex) (repl : str) (skip : nat) (s : str) : str :=
  match s with
  | [] =>
      match skip, re_match false r [] with
      | O, Some _ => repl
      | _, _ => []
      end
  | c :: t =>
      match skip with
      | S n => sub_from r repl n t
      | O =>
          match re_match false r s with
          | Some m =>
              match length (group0 m) with
              | O => repl ++ c :: sub_from r repl 0 t
              | S n => repl ++ sub_from r repl n t
              end
          | None => c :: sub_from r repl 0 t
          end
      end
  end.

Definition sub (r : regex) (repl : str) (s : str) : str := sub_from r repl 0 s.

End Re.
Import Re.

(** ** Calendar dates and the parsers of [datetime] *)
Module Datetime.

(** The date part of a [datetime] object: the scraper only prints it
    with [strftime('%Y-%m-%d')]. *)
Record date : Type := YMD { year : N; month : N; day : N }.

Definition is_leap (y : N) : bool :=
  (y mod 4 =? 0) && (negb (y mod 100 =? 0) || (y mod 400 =? 0)).

Definition days_in_month (y m : N) : N :=
  if m =? 2 then (if is_leap y then 29 else 28)
  else if (m =? 4) || (m =? 6) || (m =? 9) || (m =? 11) then 30
  else 31.

(** The check of the [date] and [datetime] constructors: years 1 to
    9999, months 1 to 12, a day the month has. *)
Definition valid_date (y m d : N) : bool :=
  (1 <=? y) && (y <=? 9999) && (1 <=? m) && (m <=? 12)
  && (1 <=? d) && (d <=? days_in_month y m).

(** [datetime(year, month, day)]; [None] is its [ValueError]. *)
Definition date_new (y m d : N) : option date :=
  if valid_date y m d then Some (YMD y m d) else None.

(** [dt.strftime('%Y-%m-%d')].  The year is printed with four digits, as
    the Python documentation gives [%Y]; the C library of Linux prints a
    year below 1000 without the leading zeros. *)
Definition strftime_Ymd (dt : date) : str :=
  zfill 4 (year dt) ++ py "-" ++ zfill 2 (month dt) ++ py "-" ++ zfill 2 (day dt).

(** *** Ordinals, for ISO week dates *)

Definition days_before_year (y : N) : N :=
  let p := y - 1 in p * 365 + p / 4 - p / 100 + p / 400.

Definition days_before_month (y m : N) : N :=
  nth (N.to_nat m) [0; 0; 31; 59; 90; 120; 151; 181; 212; 243; 273; 304; 334] 0
  + (if (2 <? m) && is_leap y then 1 else 0).

Definition ymd_to_ord (y m d : N) : N :=
  days_before_year y + days_before_month y m + d.

Definition weekday (y m d : N) : N := (ymd_to_ord y m d + 6) mod 7.

Definition iso_week1_monday (y : N) : N :=
  let first_day := ymd_to_ord y 1 1 in
  let first_weekday := (first_day + 6) mod 7 in
  let week1_monday := first_day - first_weekday in
  if 3 <? first_weekday then week1_monday + 7 else week1_monday.

Definition ord_to_ymd (ordinal : N) : N * N * N :=
  let n := ordinal - 1 in
  let n400 := n / 146097 in
  let n := n mod 146097 in
  let n100 := n / 36524 in
  let n := n mod 36524 in
  let n4 := n / 1461 in
  let n := n mod 1461 in
  let n1 := n / 365 in
  let n := n mod 365 in
  let y := n400 * 400 + 1 + n100 * 100 + n4 * 4 + n1 in
  if (n1 =? 4) || (n100 =? 4) then (y - 1, 12, 31)
  else
    let leapyear := (n1 =? 3) && (negb (n4 =? 24) || (n100 =? 3)) in
    let m := (n + 50) / 32 in
    let preceding :=
      nth (N.to_nat m) [0; 0; 31; 59; 90; 120; 151; 181; 212; 243; 273; 304; 334] 0
      + (if (2 <? m) && leapyear then 1 else 0) in
    if n <? preceding
    then (y, m - 1, n - (preceding - days_in_month y (m - 1)) + 1)
    else (y, m, n - preceding + 1).

(** Year, week and week day of the ISO calendar to year, month and day.
    For the year 0 the ordinal falls before day 1 and the constructor
    rejects what comes out, so the year 0 is refused here. *)
Definition iso_to_ymd (iso_year iso_week iso_day : N) : option (N * N * N) :=
  if iso_year =? 0 then None
  else if (iso_week =? 0) || (53 <? iso_week) then None
  else if (iso_week =? 53)
          && negb ((weekday iso_year 1 1 =? 3)
                   || ((weekday iso_year 1 1 =? 2) && is_leap iso_year))
       then None
  else if (iso_day =? 0) || (7 <? iso_day) then None
  else Some (ord_to_ymd (iso_week1_monday iso_year + (iso_week - 1) * 7 + iso_day - 1)).

(** *** [datetime.fromisoformat], after the C implementation

    The C code walks a NUL-terminated buffer: reading at the end of the
    text gives the code point 0, as [peek] does. *)

Definition peek (s : str) : N := hd 0 s.

(** [parse_digits]: exactly [n] ASCII digits. *)
Fixpoint parse_digits (n : nat) (acc : N) (s : str) : option (N * str) :=
  match n with
  | O => Some (acc, s)
  | S n' =>
      match s with
      | c :: t =>
          if is_ascii_digit c then parse_digits n' (acc * 10 + (c - 48)) t else None
      | [] => None
      end
  end.

(** The number of leading code points of [s] in the class [p]. *)
Fixpoint span (p : N -> bool) (s : str) : nat :=
  match s with
  | c :: t => if p c then S (span p t) else O
  | [] => O
  end.

(** Where the date part ends; [None] is the error return. *)
Definition find_isoformat_datetime_separator (s : str) : option nat :=
  let len := length s in
  let at_ (i : nat) := nth i s 0 in
  if Nat.eqb len 7 then Some 7%nat
  else if at_ 4%nat =? chr "-" then
    if at_ 5%nat =? chr "W" then
      if Nat.ltb 8 len && (at_ 8%nat =? chr "-") then
        if Nat.eqb len 9 then None
        else if Nat.ltb 10 len && is_ascii_digit (at_ 10%nat) then Some 8%nat
        else Some 10%nat
      else Some 8%nat
    else Some 10%nat
  else if at_ 4%nat =? chr "W" then
    let idx := (7 + span is_ascii_digit (drop 7 s))%nat in
    if Nat.ltb idx 9 then Some idx
    else if Nat.even idx then Some 7%nat else Some 8%nat
  else Some 8%nat.

(** The date part, of the [len] first code points of [s]: calendar date
    [YYYY-MM-DD] or [YYYYMMDD], or week date [YYYY-Www], [YYYY-Www-D],
    [YYYYWww] or [YYYYWwwD]. *)
Definition parse_isoformat_date (s : str) (len : nat) : option (N * N * N) :=
  '(y, p) ← parse_digits 4 0 s;
  let uses_separator := peek p =? chr "-" in
  let p := if uses_separator then tl p else p in
  if peek p =? chr "W" then
    '(iso_week, p) ← parse_digits 2 0 (tl p);
    if Nat.ltb (length s - length p) len then
      p ← (if uses_separator
           then (if peek p =? chr "-" then Some (tl p) else None)
           else Some p);
      '(iso_day, _) ← parse_digits 1 0 p;
      iso_to_ymd y iso_week iso_day
    else iso_to_ymd y iso_week 1
  else
    '(m, p) ← parse_digits 2 0 p;
    p ← (if uses_separator
         then (if peek p =? chr "-" then Some (tl p) else None)
         else Some p);
    '(d, _) ← parse_digits 2 0 p;
    Some (y, m, d).

(** The fraction of a second: up to six digits count, further digits
    are passed over.  The flag tells whether text is left. *)
Definition parse_fraction (s : str) (n : nat) : option (N * bool) :=
  let to_parse := Nat.min 6 n in
  '(us, p) ← parse_digits to_parse 0 s;
  let us := us * 10 ^ (N.of_nat (6 - to_parse)) in
  Some (us, negb (peek (lstrip_by is_ascii_digit p) =? 0)).

(** [parse_hh_mm_ss_ff] on the text [s] of which [n] code points lie
    before the end of the component: [HH[:MM[:SS[.ffffff]]]], the colons
    all there or all left out.  The result carries hour, minute, second,
    microsecond and the flag of text being left. *)
Fixpoint parse_hh_mm_ss (i : nat) (has_separator : bool) (vals : list N)
    (s : str) (n : nat) : option (list N * N * bool) :=
  match i with
  | O => '(us, more) ← parse_fraction s n; Some (vals, us, more)
  | S i' =>
      '(v, p) ← parse_digits 2 0 s;
      let n := (n - 2)%nat in
      let c := peek p in
      let has_separator := if Nat.eqb (length vals) 0 then c =? chr ":" else has_separator in
      let vals := vals ++ [v] in
      if Nat.leb n 1 then Some (vals, 0, negb (c =? 0))
      else if has_separator && (c =? chr ":") then
        parse_hh_mm_ss i' has_separator vals (tl p) (n - 1)
      else if (c =? chr ".") || (c =? chr ",") then
        '(us, more) ← parse_fraction (tl p) (n - 1); Some (vals, us, more)
      else if negb has_separator then
        parse_hh_mm_ss i' has_separator vals p n
      else None
  end.

Definition parse_hh_mm_ss_ff (s : str) (n : nat) : option (N * N * N * N * bool) :=
  '(vals, us, more) ← parse_hh_mm_ss 3 true [] s n;
  Some (nth 0 vals 0, nth 1 vals 0, nth 2 vals 0, us, more).

Definition is_tz_mark (c : N) : bool :=
  (c =? chr "Z") || (c =? chr "+") || (c =? chr "-").

(** The time part with its optional offset from UTC.  The result is the
    time of day and the size of the offset in microseconds. *)
Definition parse_isoformat_time (s : str) : option (N * N * N * N * N) :=
  match s with
  | [] => None
  | _ =>
      let tz_pos := span (fun c => negb (is_tz_mark c)) s in
      match parse_hh_mm_ss_ff s tz_pos with
      | None => None
      | Some (h, m, sec, us, more) =>
          if Nat.eqb tz_pos (length s) then
            if more then None else Some (h, m, sec, us, 0)
          else if nth tz_pos s 0 =? chr "Z" then
            if nth (S tz_pos) s 0 =? 0 then Some (h, m, sec, us, 0) else None
          else
            let tz := drop (S tz_pos) s in
            match parse_hh_mm_ss_ff tz (length tz) with
            | Some (tzh, tzm, tzs, tzus, false) =>
                Some (h, m, sec, us, (tzh * 3600 + tzm * 60 + tzs) * 1000000 + tzus)
            | _ => None
            end
      end
  end.

(** [datetime.fromisoformat(s)], giving the date of the result.  The
    C code reads the UTF-8 bytes of [s]; a date part is ASCII, where
    bytes and code points are the same, and the one separator after it
    is passed over as a whole code point. *)
Definition fromisoformat (s : str) : option date :=
  if Nat.ltb (length s) 7 then None
  else
    sep ← find_isoformat_datetime_separator s;
    '(y, m, d) ← parse_isoformat_date s sep;
    '(h, mi, sec, us, tz) ←
      (if Nat.ltb sep (length s)
       then parse_isoformat_time (drop (S sep) s)
       else Some (0, 0, 0, 0, 0));
    if (tz <? 86400 * 1000000) && (h <=? 23) && (mi <=? 59) && (sec <=? 59)
    then date_new y m d
    else None.

(** *** [datetime.strptime], after [_strptime.py]

    The month names are those of the C locale, which the scraper,
    never calling [setlocale], runs in. *)

Definition f_month : list str :=
  [[]; py "january"; py "february"; py "march"; py "april"; py "may";
   py "june"; py "july"; py "august"; py "september"; py "october";
   py "november"; py "december"].

Definition a_month : list str :=
  [[]; py "jan"; py "feb"; py "mar"; py "apr"; py "may"; py "jun";
   py "jul"; py "aug"; py "sep"; py "oct"; py "nov"; py "dec"].

(** [sorted(to_convert, key=len, reverse=True)]: longest first, equal
    lengths in their given order. *)
Fixpoint insert_by_len (x : str) (l : list str) : list str :=
  match l with
  | [] => [x]
  | y :: t =>
      if Nat.ltb (length y) (length x) then x :: l else y :: insert_by_len x t
  end.

Definition sorted_by_len (l : list str) : list str :=
  fold_left (fun acc x => insert_by_len x acc) l [].

Definition seqToRE (to_convert : list str) : regex :=
  Grp (alts (List.map lit (sorted_by_len to_convert))).

Definition in_range (lo hi : string) (c : N) : bool :=
  (chr lo <=? c) && (c <=? chr hi).

(** The regular expression of a directive, for the directives that the
    formats of the scraper use; [None] is the error of a bad directive. *)
Definition directive_regex (d : N) : option regex :=
  if d =? chr "d" then
    Some (Grp (alts [Seq (Chr (chr "3")) (Cls (in_range "0" "1"));
                     Seq (Cls (in_range "1" "2")) (Cls isdecimal);
                     Seq (Chr (chr "0")) (Cls (in_range "1" "9"));
                     Cls (in_range "1" "9");
                     Seq (Chr (chr " ")) (Cls (in_range "1" "9"))]))
  else if d =? chr "m" then
    Some (Grp (alts [Seq (Chr (chr "1")) (Cls (in_range "0" "2"));
                     Seq (Chr (chr "0")) (Cls (in_range "1" "9"));
                     Cls (in_range "1" "9")]))
  else if d =? chr "Y" then
    Some (Grp (Seq (Cls isdecimal)
                   (Seq (Cls isdecimal) (Seq (Cls isdecimal) (Cls isdecimal)))))
  else if d =? chr "B" then Some (seqToRE (tl f_month))
  else if d =? chr "b" then Some (seqToRE (tl a_month))
  else if d =? chr "%" then Some (Chr (chr "%"))
  else None.

(** [TimeRE.pattern]: a run of whitespace of the format stands for
    [\s+], a percent sign and the next code point for a directive, any
    other code point for itself.  With the pattern come the letters of
    its groups, in order. *)
Fixpoint pattern (in_ws : bool) (format : str) : option (regex * list N) :=
  match format with
  | [] => Some (Eps, [])
  | c :: t =>
      if c =? chr "%" then
        match t with
        | d :: t' =>
            r ← directive_regex d;
            '(rest, ds) ← pattern false t';
            Some (Seq r rest, if d =? chr "%" then ds else d :: ds)
        | [] => None
        end
      else if isspace c then
        '(rest, ds) ← pattern true t;
        Some (if in_ws then rest else Seq (Rep isspace 1 None) rest, ds)
      else
        '(rest, ds) ← pattern false t;
        Some (Seq (Chr c) rest, ds)
  end.

(** [l.index(x)] *)
Fixpoint index_of (x : str) (l : list str) : option N :=
  match l with
  | [] => None
  | y :: t => if str_eqb x y then Some 0 else N.succ <$> index_of x t
  end.

(** The loop over the groups found: year, month and day as they stand
    after each group. *)
Fixpoint read_groups (ds : list N) (caps : list str) (ymd : N * N * N)
    : option (N * N * N) :=
  match ds, caps with
  | d :: ds', v :: caps' =>
      let '(y, m, dd) := ymd in
      ymd' ← (if d =? chr "Y" then y' ← int v; Some (y', m, dd)
              else if d =? chr "m" then m' ← int v; Some (y, m', dd)
              else if d =? chr "B" then m' ← index_of (lower v) f_month; Some (y, m', dd)
              else if d =? chr "b" then m' ← index_of (lower v) a_month; Some (y, m', dd)
              else if d =? chr "d" then d' ← int v; Some (y, m, d')
              else Some ymd);
      read_groups ds' caps' ymd'
  | _, _ => Some ymd
  end.

(** [datetime.strptime(data_string, format)], giving the date of the
    result; [None] is the [ValueError] of a text that does not match, of
    text left after the match, and of a date that does not exist. *)
Definition strptime (data_string format : str) : option date :=
  '(format_regex, ds) ← pattern false format;
  if bool_decide (NoDup ds) then
    found ← re_match true format_regex data_string;
    match after found with
    | [] =>
        '(y, m, d) ← read_groups ds (groups found) (1900, 1, 1);
        date_new y m d
    | _ => None
    end
  else None.

End Datetime.
Import Datetime.

(** ** The parsed page: the tree that [BeautifulSoup(html, "html.parser")] builds *)
Module Bs4.

(** A text node or a tag with its attributes and children.  [attrs] is
    the attribute dict of the tag as the list of its items, one for each
    key; the parser has put tag and attribute names in lower case.
    Comments, scripts and style sheets, which [get_text] leaves out, are
    not part of the tree. *)
#[warnings="-register-all"]
Inductive node : Type :=
| NavigableString (s : str) : node
| Tag (name : str) (attrs : list (str * str)) (contents : list node) : node.

(** The page as the scraper receives it.  Parsing is the work of the
    library: a page is given by the tree the parser makes of it, whose
    root is the [BeautifulSoup] object, a tag without attributes. *)
Definition html : Type := node.

Definition BeautifulSoup (page : html) : node := page.

(** [tag.descendants]: every node below the tag, in document order. *)
Fixpoint descendants (n : node) : list node :=
  match n with
  | NavigableString _ => []
  | Tag _ _ cs =>
      (fix below (l : list node) : list node :=
         match l with
         | [] => []
         | c :: t => c :: descendants c ++ below t
         end) cs
  end.

Definition is_tag (n : node) : bool :=
  match n with Tag _ _ _ => true | NavigableString _ => false end.

Definition tag_name (n : node) : str :=
  match n with Tag nm _ _ => nm | NavigableString _ => [] end.

Fixpoint assoc (key : str) (items : list (str * str)) : option str :=
  match items with
  | [] => None
  | (k, v) :: t => if str_eqb k key then Some v else assoc key t
  end.

(** [tag.get(key)]: the value, or Python's [None]. *)
Definition get (n : node) (key : string) : option str :=
  match n with
  | Tag _ attrs _ => assoc (py key) attrs
  | NavigableString _ => None
  end.

(** [tag[key]]: the value; [None] is the [KeyError]. *)
Definition getitem (n : node) (key : string) : option str := get n key.

(** Truth of a Python value that is [None] or a string. *)
Definition truthy (v : option str) : bool :=
  match v with Some (_ :: _) => true | _ => false end.

(** The values of the [class] attribute: the parser splits it at
    whitespace. *)
Definition classes (n : node) : option (list str) := split <$> get n "class".

(** [find_all(...)]: the tags below [n] that pass [filter], in document
    order, and [find(...)]: the first of them. *)
Definition find_all (filter : node -> bool) (n : node) : list node :=
  List.filter (fun d => is_tag d && filter d) (descendants n).

Definition find (filter : node -> bool) (n : node) : option node :=
  head (find_all filter n).

(** The filters the scraper searches with. *)
Definition named (name : string) (n : node) : bool := str_eqb (tag_name n) (py name).

Definition named_any (names : list string) (n : node) : bool :=
  existsb (fun name => named name n) names.

(** [href=True] *)
Definition has_attr (key : string) (n : node) : bool :=
  match get n key with Some _ => true | None => false end.

(** [attrs={key: value}] *)
Definition attr_is (key : string) (value : str) (n : node) : bool :=
  match get n key with Some v => str_eqb v value | None => false end.

(** [class_=...]: the test holds of one of the values of the class
    attribute, or of all of them joined by spaces. *)
Definition join_spaces (l : list str) : str :=
  match l with
  | [] => []
  | x :: t => x ++ flat_map (fun y => chr " " :: y) t
  end.

Definition class_matches (test : str -> bool) (n : node) : bool :=
  match classes n with
  | Some cs => existsb test cs || test (join_spaces cs)
  | None => false
  end.

(** [tag.get_text()] *)
Definition own_text (n : node) : list str :=
  match n with NavigableString s => [s] | Tag _ _ _ => [] end.

Definition all_strings (n : node) : list str :=
  match n with
  | NavigableString s => [s]
  | Tag _ _ _ => flat_map own_text (descendants n)
  end.

Definition get_text (n : node) : str := List.concat (all_strings n).

(** [tag.get_text(strip=True)]: every string stripped, the empty ones
    left out. *)
Definition get_text_strip (n : node) : str :=
  List.concat (List.map strip (all_strings n)).

(** [tag.string]: the text of a tag whose only child is a string, or
    whose only child is such a tag. *)
Fixpoint string_of (n : node) : option str :=
  match n with
  | NavigableString s => Some s
  | Tag _ _ [c] => string_of c
  | Tag _ _ _ => None
  end.

End Bs4.
Import Bs4.

(** ** The interfaces to the network *)

(** [urllib.parse]: [urljoin(base, url)] and [urlparse(url).netloc].
    [None] is the [ValueError] both raise on a malformed URL. *)
Class UrlLib : Type := {
  urljoin : str -> str -> option str;
  urlparse_netloc : str -> option str
}.

(** [fetch_page(url, session)] over the state of the network and the
    session; [None] is the exception of a request that fails or is
    answered with an error status. *)
Class PageFetcher (World : Type) : Type := {
  fetch_page : World -> str -> World * option html
}.

(** ** The scraper *)

(** The configuration constants that the crawl depends on. *)
Record config : Type := Config {
  BASE_URL : str;
  MAX_PAGES : option nat
}.

Definition configuration : config :=
  {| BASE_URL := py "https://www.univ-eloued.dz/ar/"; MAX_PAGES := Some 1%nat |}.

(** [for x in l: v = f(x); if v: return v], ending in [None]. *)
Fixpoint first_some {A B : Type} (f : A -> option B) (l : list A) : option B :=
  match l with
  | [] => None
  | x :: t => match f x with Some v => Some v | None => first_some f t end
  end.

(** [v if v else None] for a string or [None]. *)
Definition if_truthy (v : option str) : option str :=
  if truthy v then v else None.

(** [[\n\r\t]+] and [\s+] *)
Definition newlines_re : regex :=
  Rep (fun c => (c =? 10) || (c =? 13) || (c =? 9)) 1 None.

Definition spaces_re : regex := Rep isspace 1 None.

Definition clean_text (text : option str) : str :=
  match text with
  | None | Some [] => []
  | Some text =>
      let text := sub newlines_re (py " ") text in
      let text := sub spaces_re (py " ") text in
      strip text
  end.

Definition formats : list str :=
  [py "%B %d, %Y"; py "%b %d, %Y"; py "%d %B %Y"; py "%d %b %Y";
   py "%Y-%m-%d"; py "%d/%m/%Y"; py "%d-%m-%Y"].

Definition arabic_months : list (str * N) :=
  [(py "يناير", 1); (py "فبراير", 2); (py "مارس", 3); (py "أبريل", 4);
   (py "إبريل", 4); (py "ماي", 5); (py "مايو", 5); (py "يونيو", 6);
   (py "يوليو", 7); (py "أغسطس", 8); (py "اغسطس", 8); (py "سبتمبر", 9);
   (py "أكتوبر", 10); (py "اكتوبر", 10); (py "نوفمبر", 11);
   (py "ديسمبر", 12); (py "دجمبر", 12)].

(** [arabic_months.get(name)] *)
Fixpoint months_get (name : str) (d : list (str * N)) : option N :=
  match d with
  | [] => None
  | (k, v) :: t => if str_eqb k name then Some v else months_get name t
  end.

Definition comma_or_space (c : N) : bool := (c =? chr ",") || isspace c.

(** [(name|...)\s+(\d{1,2})[,\s]+(\d{4})] over the given month names *)
Definition arabic_re (names : list str) : regex :=
  Seq (Grp (alts (List.map lit names)))
   (Seq (Rep isspace 1 None)
    (Seq (Grp (Rep isdecimal 1 (Some 2%nat)))
     (Seq (Rep comma_or_space 1 None)
          (Grp (Rep isdecimal 4 (Some 4%nat)))))).

(** [([A-Za-z]+)\s+(\d{1,2}),\s*(\d{4})] *)
Definition english_re : regex :=
  Seq (Grp (Rep is_ascii_alpha 1 None))
   (Seq (Rep isspace 1 None)
    (Seq (Grp (Rep isdecimal 1 (Some 2%nat)))
     (Seq (Chr (chr ","))
      (Seq (Rep isspace 0 None)
           (Grp (Rep isdecimal 4 (Some 4%nat))))))).

(** The four attempts of [parse_date_string], each [None] where the
    Python code catches an exception or finds no match. *)
Definition try_iso (s : str) : option date :=
  let clean := replace_char (chr "Z") (py "+00:00") s in
  fromisoformat clean.

Definition try_formats (s : str) : option date :=
  first_some (fun fmt => strptime s fmt) formats.

Definition try_arabic (s : str) : option date :=
  m ← search false (arabic_re (List.map fst arabic_months)) s;
  let month_name := group m 1 in
  let day := int_of_digits (group m 2) in
  let year := int_of_digits (group m 3) in
  month ← months_get month_name arabic_months;
  date_new year month day.

Definition try_english (s : str) : option date :=
  m2 ← search false english_re s;
  match strptime (group m2 0) (py "%B %d, %Y") with
  | Some dt => Some dt
  | None => strptime (group m2 0) (py "%b %d, %Y")
  end.

Definition parse_date_string (s : option str) : option str :=
  match s with
  | None | Some [] => None
  | Some s =>
      let s := strip s in
      match try_iso s with
      | Some dt => Some (strftime_Ymd dt)
      | None =>
          match try_formats s with
          | Some dt => Some (strftime_Ymd dt)
          | None =>
              match try_arabic s with
              | Some dt => Some (strftime_Ymd dt)
              | None =>
                  match try_english s with
                  | Some dt => Some (strftime_Ymd dt)
                  | None => None
                  end
              end
          end
      end
  end.

Definition meta_names : list str :=
  [py "article:published_time"; py "published_time"; py "date";
   py "dcterms.date"; py "dc.date"; py "pubdate"; py "publication_date";
   py "datePublished"].

(** [date|time|post-date|entry-date|تاريخ|نشر], searched with [re.I] *)
Definition date_class_re : regex :=
  alts (List.map lit [py "date"; py "time"; py "post-date"; py "entry-date";
                      py "تاريخ"; py "نشر"]).

Definition searches (icase : bool) (r : regex) (s : str) : bool :=
  match search icase r s with Some _ => true | None => false end.

Definition arabic_months_regex : list str :=
  [py "يناير"; py "فبراير"; py "مارس"; py "أبريل"; py "إبريل"; py "ماي";
   py "مايو"; py "يونيو"; py "يوليو"; py "أغسطس"; py "اغسطس"; py "سبتمبر";
   py "أكتوبر"; py "اكتوبر"; py "نوفمبر"; py "ديسمبر"; py "دجمبر"].

(** The steps of [extract_event_date], in the order of the code. *)
Definition date_of_time_tag (soup : node) : option str :=
  time_tag ← find (named "time") soup;
  let dt_attr := get time_tag "datetime" in
  match (if truthy dt_attr then if_truthy (parse_date_string dt_attr) else None) with
  | Some parsed => Some parsed
  | None =>
      let text := clean_text (Some (get_text time_tag)) in
      if_truthy (parse_date_string (Some text))
  end.

Definition date_of_meta (soup : node) (name : str) : option str :=
  meta ← match find (fun n => named "meta" n && attr_is "property" name n) soup with
         | Some m => Some m
         | None => find (fun n => named "meta" n && attr_is "name" name n) soup
         end;
  if truthy (get meta "content")
  then if_truthy (parse_date_string (getitem meta "content"))
  else None.

Definition date_of_element (el : node) : option str :=
  let text := clean_text (Some (get_text el)) in
  if_truthy (parse_date_string (Some text)).

Definition date_of_body_english (body_text : str) : option str :=
  m ← search false english_re body_text;
  if_truthy (parse_date_string (Some (group m 0))).

Definition date_of_body_arabic (body_text : str) : option str :=
  m2 ← search false (arabic_re arabic_months_regex) body_text;
  if_truthy (parse_date_string (Some (group m2 0))).

Definition extract_event_date (soup : node) : option str :=
  match date_of_time_tag soup with
  | Some parsed => Some parsed
  | None =>
  match first_some (date_of_meta soup) meta_names with
  | Some parsed => Some parsed
  | None =>
  let date_elements := find_all (class_matches (searches true date_class_re)) soup in
  match first_some date_of_element date_elements with
  | Some parsed => Some parsed
  | None =>
  let body_text := clean_text (Some (get_text soup)) in
  match date_of_body_english body_text with
  | Some parsed => Some parsed
  | None => date_of_body_arabic body_text
  end end end end.

Section Links.
Context `{UrlLib}.

(** [seen.add(url); links.append(url)] *)
Definition push (url : str) (st : gset str * list str) : gset str * list str :=
  ({[url]} ∪ st.1, st.2 ++ [url]).

(** Strategies 1 and 2: the first link with an [href] below each of the
    given elements. *)
Fixpoint first_links (base_url : str) (elements : list node)
    (st : gset str * list str) : option (gset str * list str) :=
  match elements with
  | [] => Some st
  | element :: rest =>
      match find (fun n => named "a" n && has_attr "href" n) element with
      | Some link =>
          href ← getitem link "href";
          url ← urljoin base_url href;
          first_links base_url rest
            (if bool_decide (url ∉ st.1) then push url st else st)
      | None => first_links base_url rest st
      end
  end.

(** Strategy 3: every link to the same site, but for those to the
    current page. *)
Fixpoint internal_links (base_url domain : str) (anchors : list node)
    (st : gset str * list str) : option (gset str * list str) :=
  match anchors with
  | [] => Some st
  | link :: rest =>
      href ← getitem link "href";
      url ← urljoin base_url href;
      netloc ← urlparse_netloc url;
      internal_links base_url domain rest
        (if endswith netloc domain && bool_decide (url ∉ st.1) then
           if bool_decide (rstrip_char (chr "/") url ≠ rstrip_char (chr "/") base_url)
           then push url st
           else st
         else st)
  end.

Definition heading_names : list string :=
  ["h1"%string; "h2"%string; "h3"%string; "h4"%string].

(** The state after the strategies of article containers and headings. *)
Definition container_and_heading_links (soup : node) (base_url : str)
    : option (gset str * list str) :=
  st ← first_links base_url (find_all (named "article") soup) (∅, []);
  first_links base_url (find_all (named_any heading_names) soup) st.

Definition extract_links (page : html) (base_url : str) : option (list str) :=
  let soup := BeautifulSoup page in
  st ← container_and_heading_links soup base_url;
  domain ← urlparse_netloc base_url;
  st ← internal_links base_url domain
         (find_all (fun n => named "a" n && has_attr "href" n) soup) st;
  Some st.2.

(** [find_next_page_url]: the outer [None] is an exception of
    [urljoin], the inner one the [None] the function returns. *)
Definition next_classes : list str :=
  [py "next"; py "next-page"; py "pagination-next"].

Fixpoint next_by_text (current_url : str) (anchors : list node) : option (option str) :=
  match anchors with
  | [] => Some None
  | link :: rest =>
      let text := lower (get_text_strip link) in
      let href := get link "href" in
      if truthy href && (contains (py "next") text || contains (py "→") text)
      then href ← href; Some <$> urljoin current_url href
      else next_by_text current_url rest
  end.

Definition find_next_page_url (page : html) (current_url : str) : option (option str) :=
  let soup := BeautifulSoup page in
  let next_button :=
    find (fun n => named "a" n
                   && class_matches (fun v => existsb (str_eqb v) next_classes) n) soup in
  match next_button with
  | Some button =>
      if truthy (get button "href")
      then href ← getitem button "href"; Some <$> urljoin current_url href
      else next_by_text current_url (find_all (named "a") soup)
  | None => next_by_text current_url (find_all (named "a") soup)
  end.

End Links.

(** The record of one article: the dict that [extract_article_data]
    returns. *)
Record article : Type := Article {
  Title : str;
  Date : str;
  Description : str;
  Link : str
}.

Definition content_selectors : list str :=
  [py "entry-content"; py "post-content"; py "content"; py "td-post-content";
   py "article-body"; py "article-content"; py "main-content"].

(** The loop over the content containers: the first container that has
    a paragraph gives the summary and ends the loop. *)
Fixpoint summary_of_containers (soup : node) (selectors : list str) : str :=
  match selectors with
  | [] => []
  | selector :: rest =>
      match find (class_matches (str_eqb selector)) soup with
      | Some container =>
          match find (named "p") container with
          | Some paragraph => clean_text (Some (get_text paragraph))
          | None => summary_of_containers soup rest
          end
      | None => summary_of_containers soup rest
      end
  end.

Definition extract_title (soup : node) : str :=
  match find (named "h1") soup with
  | Some h1 => clean_text (Some (get_text h1))
  | None =>
      match find (named "title") soup with
      | Some title => clean_text (string_of title)
      | None => []
      end
  end.

Definition extract_summary (soup : node) : str :=
  let meta_desc :=
    find (fun n => named "meta" n && attr_is "name" (py "description") n) soup in
  let summary :=
    match meta_desc with
    | Some m => if truthy (get m "content") then clean_text (getitem m "content") else []
    | None => []
    end in
  let summary :=
    match summary with
    | [] => summary_of_containers soup content_selectors
    | _ => summary
    end in
  match summary with
  | [] =>
      match find (named "p") soup with
      | Some paragraph => clean_text (Some (get_text paragraph))
      | None => []
      end
  | _ => summary
  end.

Definition extract_article_data (page : html) (article_url : str) : article :=
  let soup := BeautifulSoup page in
  let title := extract_title soup in
  let summary := extract_summary soup in
  let event_date := extract_event_date soup in
  let date_value := match if_truthy event_date with Some d => d | None => [] end in
  {| Title := title; Date := date_value; Description := summary; Link := article_url |}.

(** ** The crawl *)

(** The lines that [scrape_activities] prints and that depend on the run. *)
Inductive report : Type :=
| ProcessingPage (page_num : nat) (url : str)
| NoArticlesFound
| FoundArticles (n : nat)
| ArticleOK (idx total : nat)
| ArticleFailed (idx total : nat)
| NoNextPage
| ErrorProcessingPage.

(** The variables of the loop, with the network and what was printed. *)
Record crawl (World : Type) : Type := Crawl {
  world : World;
  all_data : list article;
  page_num : nat;
  current_url : option str;
  printed : list report
}.
Arguments Crawl {World}.
Arguments world {World}.
Arguments all_data {World}.
Arguments page_num {World}.
Arguments current_url {World}.
Arguments printed {World}.

Section Crawl.
Context `{UrlLib} {World : Type} `{PageFetcher World}.

(** The loop over the links of one page.  A fetch that fails is
    reported and the loop goes on to the next link. *)
Fixpoint scrape_articles (total : nat) (idx : nat) (article_links : list str)
    (w : World) (data : list article) (out : list report)
    : World * list article * list report :=
  match article_links with
  | [] => (w, data, out)
  | link :: rest =>
      match fetch_page w link with
      | (w', Some article_html) =>
          let article_data := extract_article_data article_html link in
          scrape_articles total (S idx) rest w' (data ++ [article_data])
            (out ++ [ArticleOK idx total])
      | (w', None) =>
          scrape_articles total (S idx) rest w' data (out ++ [ArticleFailed idx total])
      end
  end.

(** One turn of the [while] loop at the listing page [url].  The flag
    is true when the turn ends in the [break] of the handler. *)
Definition scrape_page (st : crawl World) (url : str) : crawl World * bool :=
  let n := S (page_num st) in
  let out := printed st ++ [ProcessingPage n url] in
  let failed w data out :=
    (Crawl w data n (current_url st) (out ++ [ErrorProcessingPage]), true) in
  match fetch_page (world st) url with
  | (w, None) => failed w (all_data st) out
  | (w, Some page_html) =>
      match extract_links page_html url with
      | None => failed w (all_data st) out
      | Some article_links =>
          let '(w, data, out) :=
            match article_links with
            | [] => (w, all_data st, out ++ [NoArticlesFound])
            | _ =>
                scrape_articles (length article_links) 1 article_links w (all_data st)
                  (out ++ [FoundArticles (length article_links)])
            end in
          match find_next_page_url page_html url with
          | None => failed w data out
          | Some next_page =>
              (Crawl w data n next_page
                 (if truthy next_page then out else out ++ [NoNextPage]), false)
          end
      end
  end.

(** [current_url and (MAX_PAGES is None or page_num < MAX_PAGES)] *)
Definition goes_on (cfg : config) (st : crawl World) : bool :=
  truthy (current_url st)
  && match MAX_PAGES cfg with
     | None => true
     | Some m => Nat.ltb (page_num st) m
     end.

(** The [while] loop.  It need not end: [fuel] bounds the number of
    turns, and [None] says that the loop is still running after them. *)
Fixpoint scrape_loop (fuel : nat) (cfg : config) (st : crawl World)
    : option (crawl World) :=
  if goes_on cfg st then
    match fuel with
    | O => None
    | S fuel' =>
        match current_url st with
        | Some url =>
            let '(st', stop) := scrape_page st url in
            if stop then Some st' else scrape_loop fuel' cfg st'
        | None => Some st
        end
    end
  else Some st.

(** What is handed to the CSV writer: the header and a row for each
    article, in the order of [all_data]. *)
Definition csv_rows (data : list article) : list (list str) :=
  [py "Title"; py "Date"; py "Description"; py "Link"]
  :: List.map (fun a => [Title a; Date a; Description a; Link a]) data.

(** [scrape_activities()]: the final state of the loop and the rows
    written to the output file. *)
Definition scrape_activities (fuel : nat) (cfg : config) (w : World)
    : option (crawl World * list (list str)) :=
  st ← scrape_loop fuel cfg (Crawl w [] 0 (Some (BASE_URL cfg)) []);
  Some (st, csv_rows (all_data st)).

End Crawl.

(** ** A network for worked examples *)

(** [urllib.parse] on plain absolute URLs: [http://] or [https://], a
    host, and a path of letters, digits and [-._~/].  Joining such a URL
    to any base gives the URL itself, and its netloc is the text up to
    the first slash of what follows the scheme.  The examples below use
    no other URL, and this instance answers no other. *)
Definition plain_char (c : N) : bool :=
  is_ascii_alpha c || is_ascii_digit c
  || (c =? chr "-") || (c =? chr ".") || (c =? chr "_") || (c =? chr "~")
  || (c =? chr "/").

Definition after_scheme (u : str) : option str :=
  if startswith u (py "https://") then Some (drop 8 u)
  else if startswith u (py "http://") then Some (drop 7 u)
  else None.

Definition is_plain_url (u : str) : bool :=
  match after_scheme u with
  | Some (c :: t) => negb (c =? chr "/") && forallb plain_char (c :: t)
  | _ => false
  end.

Definition plain_urls : UrlLib := {|
  urljoin base url := if is_plain_url url then Some url else None;
  urlparse_netloc url :=
    if is_plain_url url
    then (fun rest => take (span (fun c => negb (c =? chr "/")) rest) rest)
           <$> after_scheme url
    else None
|}.

(** A web site as the list of its pages.  The state of the network is
    the list of the requests made so far; a URL the site does not have
    is a request that fails. *)
Fixpoint page_at (url : str) (site : list (str * html)) : option html :=
  match site with
  | [] => None
  | (u, page) :: rest => if str_eqb u url then Some page else page_at url rest
  end.

Definition served (site : list (str * html)) : PageFetcher (list str) := {|
  fetch_page requests url := (requests ++ [url], page_at url site)
|}.

Definition document (contents : list node) : html := Tag (py "[document]") [] contents.

Definition home : str := BASE_URL configuration.

(** [<article><a href="https://www.univ-eloued.dz/ar/">الرئيسية</a></article>] *)
Definition self_link_page : html :=
  document [Tag (py "article") []
              [Tag (py "a") [(py "href", home)] [NavigableString (py "الرئيسية")]]].

(** [<a class="next" href="https://www.univ-eloued.dz/ar/">next</a>]:
    a listing page whose next page is the page itself. *)
Definition cyclic_page : html :=
  document [Tag (py "a") [(py "class", py "next"); (py "href", home)]
              [NavigableString (py "next")]].

Definition cyclic_site : list (str * html) := [(home, cyclic_page)].

(** [<title>News</title><p>Posted</p><time datetime="2024-05-01">May 1st</time>] *)
Definition time_page : html :=
  document [Tag (py "title") [] [NavigableString (py "News")];
            Tag (py "p") [] [NavigableString (py "Posted")];
            Tag (py "time") [(py "datetime", py "2024-05-01")]
              [NavigableString (py "May 1st")]].

(** [<h1>Seminar</h1><span id="post-date">2024-03-15</span>] and the
    same page with [class] in the place of [id]. *)
Definition id_date_page : html :=
  document [Tag (py "h1") [] [NavigableString (py "Seminar")];
            Tag (py "span") [(py "id", py "post-date")]
              [NavigableString (py "2024-03-15")]].

Definition class_date_page : html :=
  document [Tag (py "h1") [] [NavigableString (py "Seminar")];
            Tag (py "span") [(py "class", py "post-date")]
              [NavigableString (py "2024-03-15")]].

(** [<title>University news</title><h1> </h1>] *)
Definition blank_h1_page : html :=
  document [Tag (py "title") [] [NavigableString (py "University news")];
            Tag (py "h1") [] [NavigableString (py " ")]].

(** A listing page with a link to itself and two articles, of which
    the site has only the second. *)
Definition article_1 : str := py "https://www.univ-eloued.dz/ar/news/1".
Definition article_2 : str := py "https://www.univ-eloued.dz/ar/news/2".

Definition listing_page : html :=
  document [Tag (py "a") [(py "href", home)] [NavigableString (py "Home")];
            Tag (py "article") []
              [Tag (py "a") [(py "href", article_1)] [NavigableString (py "One")]];
            Tag (py "article") []
              [Tag (py "a") [(py "href", article_2)] [NavigableString (py "Two")]]].

Definition article_page : html :=
  document [Tag (py "h1") [] [NavigableString (py "Two")];
            Tag (py "p") [] [NavigableString (py "Held on March 15, 2024.")]].

Definition partial_site : list (str * html) :=
  [(home, listing_page); (article_2, article_page)].

(** A first listing page with one article and a link to a second
    listing page that the site does not have:
    [<article><a href=".../news/2">Two</a></article>
     <a class="next" href=".../page/2">Next</a>]. *)
Definition page_2 : str := py "https://www.univ-eloued.dz/ar/page/2".

Definition first_page : html :=
  document [Tag (py "article") []
              [Tag (py "a") [(py "href", article_2)] [NavigableString (py "Two")]];
            Tag (py "a") [(py "class", py "next"); (py "href", page_2)]
              [NavigableString (py "Next")]].

Definition broken_site : list (str * html) :=
  [(home, first_page); (article_2, article_page)].

Definition record_2 : article :=
  Article (py "Two") (py "2024-03-15") (py "Held on March 15, 2024.") article_2.

(** The crawl of [broken_site] after its first listing page. *)
Definition after_first_page : crawl (list str) :=
  Crawl [home; article_2; page_2] [record_2] 1 (Some page_2)
    [ProcessingPage 1 home; FoundArticles 2; ArticleOK 1 2; ArticleFailed 2 2].

(** A listing page with an anchor that [urllib] refuses,
    [<a href="http://[bad/">x</a>]: [urljoin] raises [ValueError]
    on it. *)
Definition bad_link_page : html :=
  document [Tag (py "a") [(py "href", py "http://[bad/")] [NavigableString (py "x")]].

Definition refusing_site : list (str * html) := [(home, bad_link_page)].

(** ** Vocabulary of the specification *)

(** Every maximal run of code points of the class [p] replaced by
    [repl]: what [re.sub] does for a pattern [[...]+].  [in_run] says
    that the code point before was in the class. *)
Fixpoint collapse (p : N -> bool) (repl : str) (in_run : bool) (s : str) : str :=
  match s with
  | [] => []
  | c :: t =>
      if p c then (if in_run then [] else repl) ++ collapse p repl true t
      else c :: collapse p repl false t
  end.

(** No two spaces next to each other. *)
Fixpoint no_double_space (s : str) : Prop :=
  match s with
  | c1 :: t =>
      match t with
      | c2 :: _ => ~ (c1 = 32 /\ c2 = 32)
      | [] => True
      end /\ no_double_space t
  | [] => True
  end.

(** The URLs of the listing pages that a run reports to have processed. *)
Fixpoint listing_pages (out : list report) : list str :=
  match out with
  | [] => []
  | ProcessingPage _ url :: t => url :: listing_pages t
  | _ :: t => listing_pages t
  end.

(** A URL without its trailing slashes, as [extract_links] compares
    URLs with the base URL. *)
Definition normalized (url : str) : str := rstrip_char (chr "/") url.

(** The invariant of the loops of [extract_links]: the list of links
    has no duplicates and the set [seen] has exactly its members. *)
Definition seen_links (st : gset str * list str) : Prop :=
  NoDup st.2 /\ forall u, u ∈ st.1 <-> u ∈ st.2.

(** Case analysis of a computation in the option monad that is known
    to give a result. *)
Ltac option_cases H :=
  repeat (simpl in H;
    match type of H with
    | None = Some _ => discriminate H
    | mbind _ ?x = Some _ => destruct x eqn:?
    | (let '(_, _) := ?p in _) = Some _ => destruct p eqn:?
    | (if ?b then _ else _) = Some _ => destruct b eqn:?
    | match ?x with _ => _ end = Some _ => destruct x eqn:?
    end).

(** The number that a string of ASCII digits writes, and the check that
    [zfill] writes [n] with [w] digits. *)
Definition digits_value (ds : str) (acc : N) : N :=
  fold_left (fun acc c => acc * 10 + (c - 48)) ds acc.

Definition zfill_ok (w : nat) (n : N) : bool :=
  Nat.eqb (length (zfill w n)) w
  && forallb is_ascii_digit (zfill w n)
  && (digits_value (zfill w n) 0 =? n).

(** Closes a goal that says of code points known to be digits that
    they are all digits. *)
Ltac all_digits :=
  cbn [forallb];
  repeat match goal with
         | H : is_ascii_digit _ = true |- _ => rewrite H
         end;
  reflexivity.

(** The anchors with an [href] that [extract_links] looks at, and the
    URL that an anchor of the page resolves to. *)
Definition is_link (n : node) : bool := named "a" n && has_attr "href" n.

Definition resolves_to `{UrlLib} (soup : node) (base_url url : str) : Prop :=
  exists link href,
    In link (find_all is_link soup)
    /\ getitem link "href" = Some href
    /\ urljoin base_url href = Some url.

(** The two signs by which [find_next_page_url] takes an anchor for the
    link to the next page. *)
Definition has_next_class (n : node) : bool :=
  class_matches (fun v => existsb (str_eqb v) next_classes) n.

Definition has_next_text (n : node) : bool :=
  contains (py "next") (lower (get_text_strip n))
  || contains (py "→") (lower (get_text_strip n)).

(** What each attempt of [parse_date_string] reads in the text before
    the date is built: year, month and day as the text gives them. *)
Definition iso_fields (s : str) : option (N * N * N) :=
  if Nat.ltb (length s) 7 then None
  else
    sep ← find_isoformat_datetime_separator s;
    '(y, m, d) ← parse_isoformat_date s sep;
    '(h, mi, sec, us, tz) ←
      (if Nat.ltb sep (length s)
       then parse_isoformat_time (drop (S sep) s)
       else Some (0, 0, 0, 0, 0));
    if (tz <? 86400 * 1000000) && (h <=? 23) && (mi <=? 59) && (sec <=? 59)
    then Some (y, m, d)
    else None.

Definition strptime_fields (data_string format : str) : option (N * N * N) :=
  '(format_regex, ds) ← pattern false format;
  if bool_decide (NoDup ds) then
    found ← re_match true format_regex data_string;
    match after found with
    | [] => read_groups ds (groups found) (1900, 1, 1)
    | _ => None
    end
  else None.

Definition arabic_fields (s : str) : option (N * N * N) :=
  m ← search false (arabic_re (List.map fst arabic_months)) s;
  month ← months_get (group m 1) arabic_months;
  Some (int_of_digits (group m 3), month, int_of_digits (group m 2)).

(** An attempt checks the date it has read: it gives the very year,
    month and day of the text when they are a date of the calendar, and
    fails when they are not or when nothing was read. *)
Definition checks_date (fields : option (N * N * N)) (result : option date) : Prop :=
  match fields with
  | None => result = None
  | Some (y, m, d) => result = if valid_date y m d then Some (YMD y m d) else None
  end.

(** The requests for the links of a page, made one after the other
    whatever their results are, with the result of each. *)
Fixpoint fetch_all {World : Type} `{PageFetcher World} (w : World) (links : list str)
    : World * list (str * option html) :=
  match links with
  | [] => (w, [])
  | link :: rest =>
      let '(w1, result) := fetch_page w link in
      let '(w2, results) := fetch_all w1 rest in
      (w2, (link, result) :: results)
  end.

(** The records of the requests that gave a page, and the line printed
    for each request. *)
Fixpoint records_of (results : list (str * option html)) : list article :=
  match results with
  | [] => []
  | (link, Some page) :: rest => extract_article_data page link :: records_of rest
  | (_, None) :: rest => records_of rest
  end.

Fixpoint reports_of (total idx : nat) (results : list (str * option html))
    : list report :=
  match results with
  | [] => []
  | (_, Some _) :: rest => ArticleOK idx total :: reports_of total (S idx) rest
  | (_, None) :: rest => ArticleFailed idx total :: reports_of total (S idx) rest
  end.

Fixpoint fetched_links (results : list (str * option html)) : list str :=
  match results with
  | [] => []
  | (link, Some _) :: rest => link :: fetched_links rest
  | (_, None) :: rest => fetched_links rest
  end.

(** The URL library answers every call that the scraper makes for the
    page: the host of the base URL, and for each anchor with an [href]
    the resolved URL and its host. *)
Definition calls_answered `{UrlLib} (soup : node) (base_url : str) : Prop :=
  is_Some (urlparse_netloc base_url)
  /\ forall link href,
      In link (find_all is_link soup) ->
      getitem link "href" = Some href ->
      exists url, urljoin base_url href = Some url /\ is_Some (urlparse_netloc url).

(** * Properties *)

(** ** The library models at work *)

Example py_decodes_arabic : py "مارس" = [1605; 1575; 1585; 1587].
Proof. reflexivity. Qed.

Example fromisoformat_forms :
  fromisoformat (py "2024-03-15") = Some (YMD 2024 3 15)
  /\ fromisoformat (py "2024-03-15T10:30:00+00:00") = Some (YMD 2024 3 15)
  /\ fromisoformat (py "20240315") = Some (YMD 2024 3 15)
  /\ fromisoformat (py "2024-W11-5") = Some (YMD 2024 3 15)
  /\ fromisoformat (py "2024-02-30") = None
  /\ fromisoformat (py "2024-03-15T24:00") = None
  /\ fromisoformat (py "15-03-2024") = None.
Proof. repeat split; vm_compute; reflexivity. Qed.

Example strptime_forms :
  strptime (py "15/03/2024") (py "%d/%m/%Y") = Some (YMD 2024 3 15)
  /\ strptime (py "march  15, 2024") (py "%B %d, %Y") = Some (YMD 2024 3 15)
  /\ strptime (py "Mar 15, 2024") (py "%B %d, %Y") = None
  /\ strptime (py "15/03/2024 ") (py "%d/%m/%Y") = None
  /\ strptime (py "29/02/2023") (py "%d/%m/%Y") = None.
Proof. repeat split; vm_compute; reflexivity. Qed.

Example search_takes_the_leftmost_match :
  group0 <$> search false english_re (py "Held on May 5, 2024 and June 6, 2024")
  = Some (py "May 5, 2024")
  /\ groups <$> search false (arabic_re (List.map fst arabic_months)) (py "يوم مايو 5 2024")
     = Some [py "مايو"; py "5"; py "2024"].
Proof. split; vm_compute; reflexivity. Qed.

(** ** Dates *)

(** C3: [parse_date_string] gives the calendar date 2024-03-15 for the
    ISO form, the month-name form, the two numeric day-first forms and
    the Arabic month-name form of that date. *)
Theorem parse_date_string_known_formats :
  parse_date_string (Some (py "2024-03-15")) = Some (py "2024-03-15")
  /\ parse_date_string (Some (py "March 15, 2024")) = Some (py "2024-03-15")
  /\ parse_date_string (Some (py "15/03/2024")) = Some (py "2024-03-15")
  /\ parse_date_string (Some (py "15-03-2024")) = Some (py "2024-03-15")
  /\ parse_date_string (Some (py "مارس 15, 2024")) = Some (py "2024-03-15").
Proof. repeat split; vm_compute; reflexivity. Qed.

(** C5: on the empty string and on [None] the function returns [None];
    being a total function, it raises nothing. *)
Theorem parse_date_string_empty_or_none :
  parse_date_string (Some []) = None /\ parse_date_string None = None.
Proof. split; reflexivity. Qed.

Lemma date_new_valid y m d dt :
  date_new y m d = Some dt -> valid_date (year dt) (month dt) (day dt) = true.
Proof.
  unfold date_new. destruct (valid_date y m d) eqn:V; [|discriminate].
  intros [= <-]. exact V.
Qed.

Lemma fromisoformat_valid s dt :
  fromisoformat s = Some dt -> valid_date (year dt) (month dt) (day dt) = true.
Proof.
  unfold fromisoformat. intros Hs. option_cases Hs. eauto using date_new_valid.
Qed.

Lemma strptime_valid s fmt dt :
  strptime s fmt = Some dt -> valid_date (year dt) (month dt) (day dt) = true.
Proof.
  unfold strptime. intros Hs. option_cases Hs. eauto using date_new_valid.
Qed.

Lemma first_some_Some {A B} (f : A -> option B) l v :
  first_some f l = Some v -> exists x, In x l /\ f x = Some v.
Proof.
  induction l as [|x l IH]; simpl; [discriminate|].
  destruct (f x) eqn:E.
  - intros [= <-]. exists x. auto.
  - intros Hl. destruct (IH Hl) as (y & ? & ?). exists y. auto.
Qed.

Lemma first_some_None {A B} (f : A -> option B) l :
  first_some f l = None <-> forall x, In x l -> f x = None.
Proof.
  induction l as [|x l IH]; simpl.
  - split; [intros _ ? []|reflexivity].
  - destruct (f x) eqn:E.
    + split; [discriminate|]. intros Hx. rewrite <- E. apply Hx. auto.
    + rewrite IH. split.
      * intros Hl y [<-|Hy]; auto.
      * intros Hl y Hy. apply Hl. auto.
Qed.

Lemma try_iso_valid s dt :
  try_iso s = Some dt -> valid_date (year dt) (month dt) (day dt) = true.
Proof. apply fromisoformat_valid. Qed.

Lemma try_formats_valid s dt :
  try_formats s = Some dt -> valid_date (year dt) (month dt) (day dt) = true.
Proof.
  intros Hs. apply first_some_Some in Hs as (fmt & _ & Hs).
  eapply strptime_valid, Hs.
Qed.

Lemma try_arabic_valid s dt :
  try_arabic s = Some dt -> valid_date (year dt) (month dt) (day dt) = true.
Proof.
  unfold try_arabic. intros Hs. option_cases Hs. eauto using date_new_valid.
Qed.

Lemma try_english_valid s dt :
  try_english s = Some dt -> valid_date (year dt) (month dt) (day dt) = true.
Proof.
  unfold try_english. intros Hs. option_cases Hs.
  - injection Hs as ->. eauto using strptime_valid.
  - eauto using strptime_valid.
Qed.

(** What [parse_date_string] returns is the first attempt that gives a
    date, printed. *)
Lemma parse_date_string_cascade s :
  s <> [] ->
  parse_date_string (Some s) =
    strftime_Ymd <$>
      match try_iso (strip s) with
      | Some dt => Some dt
      | None =>
          match try_formats (strip s) with
          | Some dt => Some dt
          | None =>
              match try_arabic (strip s) with
              | Some dt => Some dt
              | None => try_english (strip s)
              end
          end
      end.
Proof.
  intros Hs. destruct s as [|c s]; [done|].
  unfold parse_date_string.
  repeat (case_match; simpl; try done).
Qed.

(** A result of [parse_date_string] is a date that exists, printed. *)
Lemma parse_date_string_printed s out :
  parse_date_string s = Some out ->
  exists dt, valid_date (year dt) (month dt) (day dt) = true
             /\ out = strftime_Ymd dt.
Proof.
  destruct s as [[|c s]|]; [discriminate| |discriminate].
  rewrite parse_date_string_cascade by done.
  intros Hs. apply fmap_Some in Hs as (dt & Hdt & ->).
  exists dt. split; [|done].
  repeat case_match; simplify_eq;
    eauto using try_iso_valid, try_formats_valid, try_arabic_valid, try_english_valid.
Qed.

Lemma strftime_Ymd_truthy dt : truthy (Some (strftime_Ymd dt)) = true.
Proof.
  unfold strftime_Ymd. change (py "-") with [45].
  destruct (zfill 4 (year dt)); reflexivity.
Qed.

Lemma parse_date_string_truthy s out :
  parse_date_string s = Some out -> if_truthy (Some out) = Some out.
Proof.
  intros (dt & _ & ->)%parse_date_string_printed.
  unfold if_truthy. by rewrite strftime_Ymd_truthy.
Qed.

Lemma fromisoformat_checks_date s : checks_date (iso_fields s) (fromisoformat s).
Proof.
  unfold checks_date, iso_fields, fromisoformat, date_new.
  destruct (Nat.ltb (length s) 7); [done|].
  destruct (find_isoformat_datetime_separator s) as [sep|]; [|done].
  cbn [mbind option_bind].
  destruct (parse_isoformat_date s sep) as [[[y m] d]|]; [|done].
  cbn [mbind option_bind].
  destruct (if Nat.ltb sep (length s) then _ else _)
    as [[[[[h mi] sec] us] tz]|]; [|done].
  cbn [mbind option_bind].
  by destruct ((tz <? 86400 * 1000000) && (h <=? 23) && (mi <=? 59) && (sec <=? 59)).
Qed.

Lemma strptime_checks_date s fmt :
  checks_date (strptime_fields s fmt) (strptime s fmt).
Proof.
  unfold checks_date, strptime_fields, strptime, date_new.
  destruct (pattern false fmt) as [[r ds]|]; [|done].
  cbn [mbind option_bind].
  destruct (bool_decide (NoDup ds)); [|done].
  destruct (re_match true r s) as [found|]; [|done].
  cbn [mbind option_bind].
  destruct (after found); [|done].
  by destruct (read_groups ds (groups found) (1900, 1, 1)) as [[[y m] d]|].
Qed.

Lemma try_arabic_checks_date s : checks_date (arabic_fields s) (try_arabic s).
Proof.
  unfold checks_date, arabic_fields, try_arabic, date_new.
  destruct (search false _ s) as [m|]; [|done].
  cbn [mbind option_bind].
  by destruct (months_get (group m 1) arabic_months) as [month|].
Qed.

(** [valid_date] is the calendar: twelve months of 31 days but for
    April, June, September and November, which have 30, and February,
    which has 29 in a leap year and 28 in the others. *)
Lemma valid_date_calendar y m d :
  valid_date y m d = true
  <-> 1 <= y <= 9999 /\ 1 <= m <= 12 /\ 1 <= d <= 31
      /\ (m = 4 \/ m = 6 \/ m = 9 \/ m = 11 -> d <= 30)
      /\ (m = 2 -> d <= 29)
      /\ (m = 2 -> d = 29 ->
          y mod 4 = 0 /\ (y mod 100 <> 0 \/ y mod 400 = 0)).
Proof.
  unfold valid_date, days_in_month, is_leap.
  generalize (y mod 4) (y mod 100) (y mod 400). intros a b c.
  rewrite !andb_true_iff, !N.leb_le.
  destruct (N.eqb_spec m 2), (N.eqb_spec m 4), (N.eqb_spec m 6),
    (N.eqb_spec m 9), (N.eqb_spec m 11), (N.eqb_spec a 0),
    (N.eqb_spec b 0), (N.eqb_spec c 0); simpl; lia.
Qed.

(** C4: every attempt of [parse_date_string] yields only dates that
    exist; an attempt whose text is a date that does not exist fails and
    the next one is made; and when all fail the result is [None].  So
    ["February 30, 2024"], which the first month-name format matches, is
    answered with [None], and a text with an Arabic date that does not
    exist before an English one that does is answered with the latter.

    For every text: each attempt gives the very year, month and day it
    has read when they are a date of the calendar and fails when they
    are not, so that a day 31 read for a month of 30 days is neither
    accepted nor turned into another day; the formats are tried one
    after the other; and the result is that of the first attempt that
    gives a date. *)
Theorem parse_date_string_real_dates_only :
  (forall s dt,
      try_iso s = Some dt \/ try_formats s = Some dt
      \/ try_arabic s = Some dt \/ try_english s = Some dt ->
      valid_date (year dt) (month dt) (day dt) = true)
  /\ (forall s out,
        parse_date_string s = Some out ->
        exists dt, valid_date (year dt) (month dt) (day dt) = true
                   /\ out = strftime_Ymd dt)
  /\ (forall s,
        try_iso (strip s) = None -> try_formats (strip s) = None ->
        try_arabic (strip s) = None -> try_english (strip s) = None ->
        parse_date_string (Some s) = None)
  /\ (pattern false (py "%B %d, %Y")
        ≫= (fun rd => groups <$> re_match true rd.1 (py "February 30, 2024"))
      = Some [py "February"; py "30"; py "2024"]
      /\ valid_date 2024 2 30 = false
      /\ strptime (py "February 30, 2024") (py "%B %d, %Y") = None
      /\ parse_date_string (Some (py "February 30, 2024")) = None)
  /\ (try_arabic (py "فبراير 30, 2024 March 5, 2024") = None
      /\ parse_date_string (Some (py "فبراير 30, 2024 March 5, 2024"))
         = Some (py "2024-03-05"))
  /\ (forall y m d,
        valid_date y m d = true
        <-> 1 <= y <= 9999 /\ 1 <= m <= 12 /\ 1 <= d <= 31
            /\ (m = 4 \/ m = 6 \/ m = 9 \/ m = 11 -> d <= 30)
            /\ (m = 2 -> d <= 29)
            /\ (m = 2 -> d = 29 ->
                y mod 4 = 0 /\ (y mod 100 <> 0 \/ y mod 400 = 0)))
  /\ (forall s,
        checks_date (iso_fields (replace_char (chr "Z") (py "+00:00") s)) (try_iso s))
  /\ (forall s fmt, checks_date (strptime_fields s fmt) (strptime s fmt))
  /\ (forall s, checks_date (arabic_fields s) (try_arabic s))
  /\ (forall s,
        try_formats s = first_some (strptime s) formats
        /\ try_english s
           = search false english_re s
             ≫= fun m2 => first_some (strptime (group m2 0))
                            [py "%B %d, %Y"; py "%b %d, %Y"])
  /\ (forall s,
        s <> [] ->
        parse_date_string (Some s)
        = strftime_Ymd <$>
            match try_iso (strip s) with
            | Some dt => Some dt
            | None =>
                match try_formats (strip s) with
                | Some dt => Some dt
                | None =>
                    match try_arabic (strip s) with
                    | Some dt => Some dt
                    | None => try_english (strip s)
                    end
                end
            end)
  /\ (parse_date_string (Some (py "2024-04-31")) = None
      /\ parse_date_string (Some (py "31/04/2024")) = None
      /\ parse_date_string (Some (py "31-04-2024")) = None
      /\ parse_date_string (Some (py "April 31, 2024")) = None
      /\ parse_date_string (Some (py "31 April 2024")) = None
      /\ parse_date_string (Some (py "أبريل 31, 2024")) = None
      /\ parse_date_string (Some (py "Held on April 31, 2024.")) = None
      /\ parse_date_string (Some (py "29/02/2023")) = None
      /\ parse_date_string (Some (py "30/04/2024")) = Some (py "2024-04-30")
      /\ parse_date_string (Some (py "29/02/2024")) = Some (py "2024-02-29")).
Proof.
  split; [|split; [|split; [|split; [|split; [|split; [|split; [|split;
    [|split; [|split; [|split]]]]]]]]]].
  - intros s dt [Hs|[Hs|[Hs|Hs]]];
      eauto using try_iso_valid, try_formats_valid, try_arabic_valid, try_english_valid.
  - apply parse_date_string_printed.
  - intros [|c s] H1 H2 H3 H4; [done|].
    rewrite parse_date_string_cascade by done.
    rewrite H1, H2, H3, H4. done.
  - repeat split; vm_compute; reflexivity.
  - split; vm_compute; reflexivity.
  - apply valid_date_calendar.
  - intros s. apply fromisoformat_checks_date.
  - apply strptime_checks_date.
  - apply try_arabic_checks_date.
  - intros s. split; [reflexivity|].
    unfold try_english. destruct (search false english_re s); [|done].
    cbn [mbind option_bind first_some].
    destruct (strptime (group m 0) (py "%B %d, %Y")); [done|].
    by destruct (strptime (group m 0) (py "%b %d, %Y")).
  - apply parse_date_string_cascade.
  - repeat split; vm_compute; reflexivity.
Qed.

Lemma parse_date_string_real_dates_only_witness :
  (exists dt, valid_date (year dt) (month dt) (day dt) = true
              /\ py "2024-03-15" = strftime_Ymd dt)
  /\ valid_date (year (YMD 2024 4 30)) (month (YMD 2024 4 30)) (day (YMD 2024 4 30))
     = true
  /\ parse_date_string (Some (py "31/04/2024")) = None.
Proof.
  split; [|split].
  - apply (proj1 (proj2 parse_date_string_real_dates_only)
             (Some (py "March 15, 2024")) (py "2024-03-15")).
    vm_compute. reflexivity.
  - apply (proj1 parse_date_string_real_dates_only (py "30/04/2024") (YMD 2024 4 30)).
    right. left. vm_compute. reflexivity.
  - apply (proj1 (proj2 (proj2 parse_date_string_real_dates_only)) (py "31/04/2024")).
    + vm_compute. reflexivity.
    + vm_compute. reflexivity.
    + vm_compute. reflexivity.
    + vm_compute. reflexivity.
Defined.

(** ** Text *)

Section Runs.
Variable p : N -> bool.

Lemma span_lstrip_length s : (span p s + length (lstrip_by p s))%nat = length s.
Proof. induction s as [|c s IH]; simpl; [done|]. destruct (p c); simpl; lia. Qed.

Lemma lstrip_by_suffix s : exists l, s = l ++ lstrip_by p s.
Proof.
  induction s as [|c s [l IH]]; simpl; [by exists []|].
  destruct (p c).
  - exists (c :: l). simpl. by f_equal.
  - by exists [].
Qed.

Lemma rstrip_by_prefix s : exists l, s = rstrip_by p s ++ l.
Proof.
  unfold rstrip_by. destruct (lstrip_by_suffix (rev s)) as [l Hl].
  exists (rev l). rewrite <- rev_app_distr, <- Hl. by rewrite rev_involutive.
Qed.

Lemma head_lstrip_by s :
  from_option (fun c => p c = false) True (head (lstrip_by p s)).
Proof.
  induction s as [|c s IH]; simpl; [done|].
  destruct (p c) eqn:E; simpl; done.
Qed.

Lemma lstrip_by_snoc l c :
  p c = false -> lstrip_by p (l ++ [c]) = lstrip_by p l ++ [c].
Proof.
  intros Hc. induction l as [|x l IH]; simpl; [by rewrite Hc|].
  by destruct (p x).
Qed.

Lemma rstrip_by_cons c s :
  p c = false -> rstrip_by p (c :: s) = c :: rstrip_by p s.
Proof.
  intros Hc. unfold rstrip_by. simpl.
  by rewrite lstrip_by_snoc, rev_app_distr.
Qed.

Lemma last_rev (s : str) : last (rev s) = head s.
Proof. destruct s as [|c s]; simpl; [done|]. by rewrite last_snoc. Qed.

Lemma last_rstrip_by s :
  from_option (fun c => p c = false) True (last (rstrip_by p s)).
Proof. unfold rstrip_by. rewrite last_rev. apply head_lstrip_by. Qed.

(** The greedy repetition in front of a continuation that accepts
    everything takes the whole run. *)
Lemma rep_match_greedy {A} (k : str -> A) s lo :
  rep_match p lo None s (fun r => Some (k r))
  = if Nat.leb lo (span p s) then Some (k (lstrip_by p s)) else None.
Proof.
  revert lo. induction s as [|c s IH]; intros lo; simpl.
  - by destruct lo.
  - destruct (p c); simpl.
    + rewrite IH. destruct lo as [|lo]; simpl; [done|].
      by destruct (Nat.leb lo (span p s)).
    + by destruct lo.
Qed.

Lemma re_match_run s :
  re_match false (Rep p 1 None) s
  = if Nat.leb 1 (span p s)
    then Some (MatchObj (take (span p s) s) [] (lstrip_by p s))
    else None.
Proof.
  unfold re_match. simpl rmatch.
  rewrite (rep_match_greedy
             (fun rest => MatchObj (take (length s - length rest) s) [] rest)).
  destruct (Nat.leb 1 (span p s)); [|done].
  do 3 f_equal. pose proof (span_lstrip_length s). lia.
Qed.

Lemma sub_from_skip_run repl s :
  sub_from (Rep p 1 None) repl (span p s) s
  = sub_from (Rep p 1 None) repl 0 (lstrip_by p s).
Proof.
  induction s as [|c s IH]; [done|].
  simpl span. simpl lstrip_by. destruct (p c) eqn:E; [|done].
  simpl. exact IH.
Qed.

Lemma collapse_in_run repl s :
  collapse p repl true s = collapse p repl false (lstrip_by p s).
Proof.
  induction s as [|c s IH]; simpl; [done|].
  destruct (p c) eqn:E; simpl; [done|]. by rewrite E.
Qed.

Lemma length_lstrip_by s : (length (lstrip_by p s) <= length s)%nat.
Proof. pose proof (span_lstrip_length s). lia. Qed.

(** [re.sub] of a pattern [[...]+] replaces every maximal run. *)
Lemma sub_run_collapse repl s :
  sub (Rep p 1 None) repl s = collapse p repl false s.
Proof.
  unfold sub.
  induction s as [s IH] using (induction_ltof1 _ (@length N)).
  unfold ltof in IH.
  destruct s as [|c s]; [done|].
  cbn [sub_from]. rewrite re_match_run.
  simpl span. simpl collapse. destruct (p c) eqn:E.
  - simpl Nat.leb. cbn [group0].
    rewrite length_take_le by (pose proof (span_lstrip_length s); simpl; lia).
    rewrite sub_from_skip_run, IH by (pose proof (length_lstrip_by s); simpl; lia).
    by rewrite collapse_in_run.
  - simpl Nat.leb. rewrite IH by (simpl; lia). done.
Qed.

End Runs.

Lemma collapse_spaces_only b s :
  Forall (fun c => isspace c = true -> c = 32) (collapse isspace [32] b s).
Proof.
  revert b. induction s as [|c s IH]; intros b; simpl; [constructor|].
  destruct (isspace c) eqn:E.
  - destruct b; simpl; [apply IH|]. constructor; [done|apply IH].
  - constructor; [congruence|apply IH].
Qed.

Lemma collapse_no_double_space b s :
  no_double_space (collapse isspace [32] b s)
  /\ (b = true -> head (collapse isspace [32] b s) <> Some 32).
Proof.
  revert b. induction s as [|c s IH]; intros b; simpl; [done|].
  destruct (isspace c) eqn:E.
  - destruct (IH true) as [IH1 IH2]. destruct b; simpl; [done|].
    split; [|done]. split; [|done].
    destruct (collapse isspace [32] true s) as [|c2 r] eqn:C; [done|].
    intros [_ ->]. by apply IH2.
  - destruct (IH false) as [IH1 _]. split.
    + simpl. split; [|done].
      destruct (collapse isspace [32] false s); [done|].
      intros [-> _]. discriminate E.
    + intros _ [= ->]. discriminate E.
Qed.

Lemma no_double_space_app_r l s : no_double_space (l ++ s) -> no_double_space s.
Proof. induction l as [|c l IH]; simpl; [done|]. intros [_ Hs]. auto. Qed.

Lemma no_double_space_app_l s l : no_double_space (s ++ l) -> no_double_space s.
Proof.
  induction s as [|c s IH]; simpl; [done|].
  intros [Hc Hs]. split; [|auto].
  destruct s; simpl in *; done.
Qed.

Lemma no_double_space_spec s :
  no_double_space s -> forall l1 l2, s <> l1 ++ [32; 32] ++ l2.
Proof.
  intros Hs l1 l2 ->. apply no_double_space_app_r in Hs.
  simpl in Hs. tauto.
Qed.

(** C6: the text that [clean_text] returns has no tab, newline or
    carriage return, in fact no whitespace but single spaces; it has no
    two spaces in a row, and it neither begins nor ends with
    whitespace.  For [None] and for the empty string it is empty. *)
Theorem clean_text_normalized (text : option str) :
  ((9 ∉ clean_text text) /\ (10 ∉ clean_text text) /\ (13 ∉ clean_text text))
  /\ Forall (fun c => isspace c = true -> c = 32) (clean_text text)
  /\ ~ (exists l1 l2, clean_text text = l1 ++ [32; 32] ++ l2)
  /\ from_option (fun c => isspace c = false) True (head (clean_text text))
  /\ from_option (fun c => isspace c = false) True (last (clean_text text))
  /\ clean_text None = [] /\ clean_text (Some []) = [].
Proof.
  assert (Hw : Forall (fun c => isspace c = true -> c = 32) (clean_text text)
               /\ no_double_space (clean_text text)
               /\ from_option (fun c => isspace c = false) True (head (clean_text text))
               /\ from_option (fun c => isspace c = false) True (last (clean_text text))).
  { destruct text as [[|c0 text]|]; [by repeat split; try constructor| |by repeat split; try constructor].
    unfold clean_text.
    set (t1 := sub newlines_re (py " ") (c0 :: text)).
    unfold spaces_re. rewrite sub_run_collapse.
    change (py " ") with [32].
    set (t2 := collapse isspace [32] false t1).
    pose proof (collapse_spaces_only false t1) as H1.
    destruct (collapse_no_double_space false t1) as [H2 _].
    fold t2 in H1, H2.
    unfold strip.
    destruct (lstrip_by_suffix isspace t2) as [l1 Hl1].
    pose proof (head_lstrip_by isspace t2) as Hh.
    set (y := lstrip_by isspace t2) in *.
    destruct (rstrip_by_prefix isspace y) as [l2 Hl2].
    rewrite Hl1, Hl2 in H1, H2.
    apply Forall_app in H1 as [_ H1]. apply Forall_app in H1 as [H1 _].
    apply no_double_space_app_r, no_double_space_app_l in H2.
    repeat split; [done|done| |apply last_rstrip_by].
    destruct y as [|c y]; [done|]. simpl in Hh.
    by rewrite rstrip_by_cons. }
  destruct Hw as (H1 & H2 & H3 & H4).
  assert (Hno : forall c, isspace c = true -> c <> 32 -> c ∉ clean_text text).
  { intros c Hc Hne Hin. rewrite Forall_forall in H1. by apply Hne, H1. }
  repeat split; try done; try (apply Hno; done).
  intros (l1 & l2 & E). by eapply no_double_space_spec.
Qed.

(** ** Link discovery *)

Section LinkProperties.
Context `{UrlLib}.

Lemma seen_links_empty : seen_links (∅, []).
Proof. split; [constructor|]. intros u. simpl. set_solver. Qed.

Lemma seen_links_push url st :
  seen_links st -> url ∉ st.1 -> seen_links (push url st).
Proof.
  intros [Hnd Hs] Hu. split; simpl.
  - apply NoDup_app. split; [done|]. split; [|apply NoDup_singleton].
    intros u Hin ->%list_elem_of_singleton. by apply Hu, Hs.
  - intros u. rewrite elem_of_union, elem_of_singleton, elem_of_app,
      list_elem_of_singleton, Hs. tauto.
Qed.

Lemma first_links_spec base_url elements st st' :
  first_links base_url elements st = Some st' ->
  seen_links st ->
  seen_links st' /\ exists more, st'.2 = st.2 ++ more.
Proof.
  revert st. induction elements as [|el rest IH]; intros st Hrun Hst; simpl in Hrun.
  - injection Hrun as <-. split; [done|]. exists []. by rewrite app_nil_r.
  - destruct (find _ el) as [link|]; [|by apply IH].
    destruct (getitem link "href") as [href|]; [|done]. simpl in Hrun.
    destruct (urljoin base_url href) as [url|]; [|done]. simpl in Hrun.
    case_bool_decide as Hu.
    + apply IH in Hrun as [? [more ->]]; [|by apply seen_links_push].
      split; [done|]. exists (url :: more). simpl. by rewrite <- app_assoc.
    + by apply IH.
Qed.

Lemma internal_links_spec base_url domain anchors st st' :
  internal_links base_url domain anchors st = Some st' ->
  seen_links st ->
  seen_links st'
  /\ exists more, st'.2 = st.2 ++ more
                  /\ Forall (fun u => normalized u <> normalized base_url) more.
Proof.
  revert st. induction anchors as [|link rest IH]; intros st Hrun Hst; simpl in Hrun.
  - injection Hrun as <-. split; [done|]. exists []. by rewrite app_nil_r.
  - destruct (getitem link "href") as [href|]; [|done]. simpl in Hrun.
    destruct (urljoin base_url href) as [url|]; [|done]. simpl in Hrun.
    destruct (urlparse_netloc url) as [netloc|]; [|done]. simpl in Hrun.
    destruct (endswith netloc domain && bool_decide (url ∉ st.1)) eqn:Hc;
      [|by apply IH].
    apply andb_prop in Hc as [_ Hu%bool_decide_eq_true].
    case_bool_decide as Hn; [|by apply IH].
    apply IH in Hrun as [? (more & -> & Hmore)]; [|by apply seen_links_push].
    split; [done|]. exists (url :: more). simpl. rewrite <- app_assoc.
    split; [done|]. by constructor.
Qed.

(** C1, as the code has it: the list that [extract_links] returns has
    no duplicates; it is the links of the article containers and of the
    headings followed by those of the same-site strategy; and the links
    of the same-site strategy differ from the base URL, trailing slashes
    apart.  The links of containers and headings are not compared with
    the base URL. *)
Theorem extract_links_no_duplicates_and_fallback_skips_base page base_url links :
  extract_links page base_url = Some links ->
  NoDup links
  /\ exists st more,
      container_and_heading_links (BeautifulSoup page) base_url = Some st
      /\ links = st.2 ++ more
      /\ Forall (fun u => normalized u <> normalized base_url) more.
Proof.
  unfold extract_links, container_and_heading_links. intros Hrun.
  destruct (first_links base_url (find_all (named "article") _) _) as [st1|] eqn:H1;
    [|done].
  simpl in Hrun.
  destruct (first_links base_url (find_all (named_any _) _) st1) as [st2|] eqn:H2;
    [|done].
  simpl in Hrun.
  destruct (urlparse_netloc base_url) as [domain|]; [|done]. simpl in Hrun.
  destruct (internal_links _ _ _ st2) as [st3|] eqn:H3; [|done].
  injection Hrun as <-.
  pose proof (first_links_spec _ _ _ _ H1 seen_links_empty) as [I1 _].
  pose proof (first_links_spec _ _ _ _ H2 I1) as [I2 _].
  pose proof (internal_links_spec _ _ _ _ _ H3 I2) as [[I3 _] (more & E & Hmore)].
  split; [done|]. exists st2, more. simpl. by rewrite H2.
Qed.

End LinkProperties.

(** C1 as the claim states it fails: the first link of an article
    container is returned also when it is the base URL itself. *)
Lemma extract_links_returns_base_url_of_article :
  exists links,
    @extract_links plain_urls self_link_page home = Some links
    /\ exists u, u ∈ links /\ normalized u = normalized home.
Proof.
  exists [home]. split; [vm_compute; reflexivity|].
  exists home. split; [apply list_elem_of_singleton|]; reflexivity.
Qed.

Lemma extract_links_no_duplicates_and_fallback_skips_base_witness :
  NoDup [article_1; article_2]
  /\ exists st more,
      @container_and_heading_links plain_urls (BeautifulSoup listing_page) home = Some st
      /\ [article_1; article_2] = st.2 ++ more
      /\ Forall (fun u => normalized u <> normalized home) more.
Proof.
  apply (@extract_links_no_duplicates_and_fallback_skips_base plain_urls
           listing_page home [article_1; article_2]).
  vm_compute. reflexivity.
Defined.

(** ** The crawl *)

Lemma listing_pages_app a b :
  listing_pages (a ++ b) = listing_pages a ++ listing_pages b.
Proof.
  induction a as [|r a IH]; simpl; [done|].
  destruct r; simpl; by rewrite ?IH.
Qed.

Section CrawlProperties.
Context `{UrlLib} {World : Type} `{PageFetcher World}.

Lemma scrape_articles_spec total idx article_links w data out :
  let '(w', data', out') := scrape_articles total idx article_links w data out in
  data `prefix_of` data' /\ listing_pages out' = listing_pages out.
Proof.
  revert idx w data out.
  induction article_links as [|link rest IH]; intros idx w data out; simpl; [done|].
  destruct (fetch_page w link) as [w' [article_html|]].
  - specialize (IH (S idx) w' (data ++ [extract_article_data article_html link])
                  (out ++ [ArticleOK idx total])).
    destruct (scrape_articles _ _ _ _ _ _) as [[w2 data2] out2].
    destruct IH as [IH1 IH2]. split.
    + etrans; [|exact IH1]. by apply prefix_app_r.
    + by rewrite IH2, listing_pages_app, app_nil_r.
  - specialize (IH (S idx) w' data (out ++ [ArticleFailed idx total])).
    destruct (scrape_articles _ _ _ _ _ _) as [[w2 data2] out2].
    destruct IH as [IH1 IH2]. split; [done|].
    by rewrite IH2, listing_pages_app, app_nil_r.
Qed.

(** One turn of the loop counts one page, reports its URL, and keeps
    the articles collected before it. *)
Lemma scrape_page_spec st url :
  page_num (scrape_page st url).1 = S (page_num st)
  /\ listing_pages (printed (scrape_page st url).1) = listing_pages (printed st) ++ [url]
  /\ all_data st `prefix_of` all_data (scrape_page st url).1.
Proof.
  unfold scrape_page.
  destruct (fetch_page (world st) url) as [w [page_html|]]; simpl.
  2: { by rewrite !listing_pages_app, app_nil_r. }
  destruct (extract_links page_html url) as [article_links|]; simpl.
  2: { by rewrite !listing_pages_app, app_nil_r. }
  assert (Hloop : let '(w', data', out') :=
            match article_links with
            | [] => (w, all_data st, (printed st ++ [ProcessingPage (S (page_num st)) url])
                                       ++ [NoArticlesFound])
            | _ :: _ =>
                scrape_articles (length article_links) 1 article_links w (all_data st)
                  ((printed st ++ [ProcessingPage (S (page_num st)) url])
                     ++ [FoundArticles (length article_links)])
            end in
          all_data st `prefix_of` data'
          /\ listing_pages out' = listing_pages (printed st) ++ [url]).
  { destruct article_links as [|l ls].
    - by rewrite !listing_pages_app, app_nil_r.
    - pose proof (scrape_articles_spec (length (l :: ls)) 1 (l :: ls) w (all_data st)
                    ((printed st ++ [ProcessingPage (S (page_num st)) url])
                       ++ [FoundArticles (length (l :: ls))])) as Hs.
      destruct (scrape_articles _ _ _ _ _ _) as [[w2 data2] out2].
      destruct Hs as [Hs1 Hs2]. split; [done|].
      by rewrite Hs2, !listing_pages_app, app_nil_r. }
  destruct (match article_links with [] => _ | _ => _ end) as [[w2 data2] out2].
  destruct Hloop as [Hd Ho].
  destruct (find_next_page_url page_html url) as [next_page|]; simpl.
  - repeat split; [|done]. destruct (truthy next_page); [done|].
    by rewrite listing_pages_app, app_nil_r.
  - repeat split; [|done]. by rewrite listing_pages_app, app_nil_r.
Qed.

Lemma scrape_loop_bounded cfg n fuel st :
  MAX_PAGES cfg = Some n ->
  (n - page_num st <= fuel)%nat ->
  exists st',
    scrape_loop fuel cfg st = Some st'
    /\ (page_num st' <= Nat.max n (page_num st))%nat
    /\ (length (listing_pages (printed st')) + page_num st
        = length (listing_pages (printed st)) + page_num st')%nat
    /\ all_data st `prefix_of` all_data st'.
Proof.
  intros Hn. revert st.
  induction fuel as [|fuel IH]; intros st Hfuel.
  - exists st. split; [|split; [lia|done]].
    simpl. unfold goes_on. rewrite Hn.
    destruct (Nat.ltb_spec (page_num st) n); [lia|].
    by rewrite andb_false_r.
  - simpl. destruct (goes_on cfg st) eqn:Hgo.
    2: { exists st. split; [done|]. split; [lia|done]. }
    destruct (current_url st) as [url|]; [|exists st; split; [done|split; [lia|done]]].
    assert (page_num st < n)%nat as Hlt.
    { unfold goes_on in Hgo. rewrite Hn in Hgo.
      apply andb_prop in Hgo as [_ Hgo]. by apply Nat.ltb_lt. }
    pose proof (scrape_page_spec st url) as (Hp & Hl & Hd).
    destruct (scrape_page st url) as [st1 stop]. simpl in Hp, Hl, Hd.
    destruct stop.
    + exists st1. split; [done|]. rewrite Hl, length_app. simpl. split; [lia|].
      split; [lia|done].
    + destruct (IH st1) as (st' & Hrun & Hb & Hc & Hd'); [lia|].
      exists st'. split; [done|]. rewrite Hl, length_app in Hc. simpl in Hc.
      split; [lia|]. split; [lia|]. by etrans.
Qed.

Lemma scrape_loop_more_fuel cfg fuel1 fuel2 st st' :
  scrape_loop fuel1 cfg st = Some st' -> (fuel1 <= fuel2)%nat ->
  scrape_loop fuel2 cfg st = Some st'.
Proof.
  revert fuel2 st. induction fuel1 as [|fuel1 IH]; intros fuel2 st; simpl.
  - destruct (goes_on cfg st) eqn:Hgo; [done|]. intros [= <-] _.
    destruct fuel2; simpl; by rewrite Hgo.
  - intros Hrun Hle. destruct fuel2 as [|fuel2]; [lia|]. simpl.
    destruct (goes_on cfg st); [|done].
    destruct (current_url st) as [url|]; [|done].
    destruct (scrape_page st url) as [st1 [|]]; [done|].
    apply IH; [done|lia].
Qed.

(** C2, as the code has it: with a page ceiling [n] the crawl ends, and
    by then it has processed at most [n] listing pages, whatever the
    next links are; fuel beyond [n] turns changes nothing.  No record of
    the listing pages visited is kept. *)
Theorem scrape_activities_stops_at_max_pages cfg n fuel (w : World) :
  MAX_PAGES cfg = Some n ->
  (n <= fuel)%nat ->
  exists st,
    scrape_activities fuel cfg w = Some (st, csv_rows (all_data st))
    /\ scrape_activities n cfg w = Some (st, csv_rows (all_data st))
    /\ (page_num st <= n)%nat
    /\ length (listing_pages (printed st)) = page_num st.
Proof.
  intros Hn Hfuel. unfold scrape_activities.
  destruct (scrape_loop_bounded cfg n n (Crawl w [] 0 (Some (BASE_URL cfg)) []) Hn)
    as (st & Hrun & Hb & Hc & _); [simpl; lia|].
  exists st. rewrite (scrape_loop_more_fuel _ _ _ _ _ Hrun Hfuel), Hrun.
  simpl in *. repeat split; lia.
Qed.

End CrawlProperties.

(** The site whose listing page names itself as the next page. *)
Lemma cyclic_page_served : page_at home cyclic_site = Some cyclic_page.
Proof. vm_compute. reflexivity. Qed.

Lemma cyclic_page_links : @extract_links plain_urls cyclic_page home = Some [].
Proof. vm_compute. reflexivity. Qed.

Lemma cyclic_page_next : @find_next_page_url plain_urls cyclic_page home = Some (Some home).
Proof. vm_compute. reflexivity. Qed.

Lemma scrape_page_cyclic w data n out :
  @scrape_page plain_urls _ (served cyclic_site) (Crawl w data n (Some home) out) home
  = (Crawl (w ++ [home]) data (S n) (Some home)
       ((out ++ [ProcessingPage (S n) home]) ++ [NoArticlesFound]), false).
Proof.
  unfold scrape_page.
  change (@fetch_page _ (served cyclic_site) (world (Crawl w data n (Some home) out)) home)
    with (w ++ [home], page_at home cyclic_site).
  rewrite cyclic_page_served, cyclic_page_links, cyclic_page_next.
  reflexivity.
Qed.

Lemma scrape_loop_cyclic_runs_on fuel w data n out :
  @scrape_loop plain_urls _ (served cyclic_site) fuel (Config home None)
    (Crawl w data n (Some home) out) = None.
Proof.
  revert w data n out. induction fuel as [|fuel IH]; intros w data n out.
  - reflexivity.
  - cbn [scrape_loop].
    change (goes_on (Config home None) (Crawl w data n (Some home) out)) with true.
    cbn [current_url]. rewrite scrape_page_cyclic. apply IH.
Qed.

(** C2 as the claim states it fails: the next link that leads back to
    the page visited is followed, and the page is fetched again; and
    with no page ceiling the loop never ends. *)
Lemma cyclic_next_link_is_fetched_again :
  (exists st rows,
      @scrape_activities plain_urls _ (served cyclic_site) 2 (Config home (Some 2%nat)) []
      = Some (st, rows)
      /\ world st = [home; home]
      /\ listing_pages (printed st) = [home; home])
  /\ forall fuel,
      @scrape_activities plain_urls _ (served cyclic_site) fuel (Config home None) []
      = None.
Proof.
  split.
  - eexists _, _. split; [vm_compute; reflexivity|]. split; reflexivity.
  - intros fuel. unfold scrape_activities.
    change (BASE_URL (Config home None)) with home.
    by rewrite scrape_loop_cyclic_runs_on.
Qed.

Lemma scrape_activities_stops_at_max_pages_witness :
  exists st,
    @scrape_activities plain_urls _ (served cyclic_site) 5 (Config home (Some 2%nat)) []
    = Some (st, csv_rows (all_data st))
    /\ @scrape_activities plain_urls _ (served cyclic_site) 2 (Config home (Some 2%nat)) []
       = Some (st, csv_rows (all_data st))
    /\ (page_num st <= 2)%nat
    /\ length (listing_pages (printed st)) = page_num st.
Proof.
  apply (@scrape_activities_stops_at_max_pages plain_urls _ (served cyclic_site)
           (Config home (Some 2%nat)) 2 5 []).
  - reflexivity.
  - lia.
Defined.

(** ** Fields of an article *)

(** C7: the [datetime] attribute of the first [time] element of the
    page, when it parses as a date, is the date extracted, whatever the
    text of the element and the rest of the page are; with the attribute
    [2024-05-01] the date is [2024-05-01]. *)
Theorem time_datetime_attribute_takes_precedence :
  (forall page article_url time_tag v parsed,
      find (named "time") (BeautifulSoup page) = Some time_tag ->
      get time_tag "datetime" = Some v ->
      parse_date_string (Some v) = Some parsed ->
      extract_event_date (BeautifulSoup page) = Some parsed
      /\ Date (extract_article_data page article_url) = parsed)
  /\ (forall page article_url time_tag,
        find (named "time") (BeautifulSoup page) = Some time_tag ->
        get time_tag "datetime" = Some (py "2024-05-01") ->
        extract_event_date (BeautifulSoup page) = Some (py "2024-05-01")
        /\ Date (extract_article_data page article_url) = py "2024-05-01").
Proof.
  assert (Hgen : forall page article_url time_tag v parsed,
      find (named "time") (BeautifulSoup page) = Some time_tag ->
      get time_tag "datetime" = Some v ->
      parse_date_string (Some v) = Some parsed ->
      extract_event_date (BeautifulSoup page) = Some parsed
      /\ Date (extract_article_data page article_url) = parsed).
  { intros page article_url time_tag v parsed Hfind Hattr Hparse.
    assert (extract_event_date (BeautifulSoup page) = Some parsed) as Hdate.
    { unfold extract_event_date, date_of_time_tag. rewrite Hfind. simpl.
      rewrite Hattr.
      assert (truthy (Some v) = true) as ->.
      { destruct v; [discriminate Hparse|reflexivity]. }
      rewrite Hparse. by rewrite (parse_date_string_truthy _ _ Hparse). }
    split; [done|].
    unfold extract_article_data. cbn [Date]. rewrite Hdate.
    by rewrite (parse_date_string_truthy _ _ Hparse). }
  split; [exact Hgen|].
  intros page article_url time_tag Hfind Hattr.
  apply (Hgen page article_url time_tag (py "2024-05-01")); [done|done|].
  vm_compute. reflexivity.
Qed.

Lemma time_datetime_attribute_takes_precedence_witness :
  extract_event_date (BeautifulSoup time_page) = Some (py "2024-05-01")
  /\ Date (extract_article_data time_page article_1) = py "2024-05-01".
Proof.
  apply (proj2 time_datetime_attribute_takes_precedence time_page article_1
           (Tag (py "time") [(py "datetime", py "2024-05-01")]
              [NavigableString (py "May 1st")])).
  - vm_compute. reflexivity.
  - vm_compute. reflexivity.
Defined.

(** A tag without a [class] attribute passes no class filter, whatever
    its other attributes are. *)
Lemma class_matches_needs_class test n :
  get n "class" = None -> class_matches test n = false.
Proof. unfold class_matches, classes. by intros ->. Qed.

(** C8: the search for date elements reads the [class] attribute only.
    On a page whose date stands in an element that has the id
    [post-date] and no class, no date is found, although the text of the
    element parses as a date and the same element with the class
    [post-date] gives it. *)
Theorem extract_event_date_ignores_id :
  extract_event_date (BeautifulSoup id_date_page) = None
  /\ Date (extract_article_data id_date_page article_1) = []
  /\ parse_date_string (Some (clean_text (Some (py "2024-03-15")))) = Some (py "2024-03-15")
  /\ extract_event_date (BeautifulSoup class_date_page) = Some (py "2024-03-15").
Proof. repeat split; vm_compute; reflexivity. Qed.

(** C10: when the page has an [h1] element, the title is the cleaned
    text of the first one, empty if that is empty, and the [title]
    element is not looked at; it is looked at when there is no [h1]. *)
Theorem title_falls_back_only_without_h1 :
  (forall page article_url h1,
      find (named "h1") (BeautifulSoup page) = Some h1 ->
      Title (extract_article_data page article_url) = clean_text (Some (get_text h1)))
  /\ (forall page article_url h1,
        find (named "h1") (BeautifulSoup page) = Some h1 ->
        clean_text (Some (get_text h1)) = [] ->
        Title (extract_article_data page article_url) = [])
  /\ (forall page article_url,
        find (named "h1") (BeautifulSoup page) = None ->
        Title (extract_article_data page article_url)
        = match find (named "title") (BeautifulSoup page) with
          | Some title => clean_text (string_of title)
          | None => []
          end)
  /\ (string_of <$> find (named "title") (BeautifulSoup blank_h1_page)
      = Some (Some (py "University news"))
      /\ Title (extract_article_data blank_h1_page article_1) = []).
Proof.
  split; [|split; [|split]].
  - intros page article_url h1 Hfind.
    unfold extract_article_data, extract_title. cbn [Title]. by rewrite Hfind.
  - intros page article_url h1 Hfind Hempty.
    unfold extract_article_data, extract_title. cbn [Title]. by rewrite Hfind.
  - intros page article_url Hfind.
    unfold extract_article_data, extract_title. cbn [Title]. by rewrite Hfind.
  - split; vm_compute; reflexivity.
Qed.

Lemma title_falls_back_only_without_h1_witness :
  Title (extract_article_data blank_h1_page article_1) = [].
Proof.
  apply (proj1 (proj2 title_falls_back_only_without_h1) blank_h1_page article_1
           (Tag (py "h1") [] [NavigableString (py " ")])).
  - vm_compute. reflexivity.
  - vm_compute. reflexivity.
Defined.

(** ** Failures of the network *)

Section FetchFailures.
Context `{UrlLib} {World : Type} `{PageFetcher World}.

Lemma scrape_articles_fetch_all total idx links (w : World) data out :
  scrape_articles total idx links w data out
  = let '(w', results) := fetch_all w links in
    (w', data ++ records_of results, out ++ reports_of total idx results).
Proof.
  revert idx w data out.
  induction links as [|link rest IH]; intros idx w data out; simpl.
  - by rewrite !app_nil_r.
  - destruct (fetch_page w link) as [w1 [page|]]; rewrite IH;
      destruct (fetch_all w1 rest) as [w2 results]; simpl;
      by rewrite <- ?app_assoc.
Qed.

Lemma fetch_all_links (w : World) links :
  List.map fst (fetch_all w links).2 = links.
Proof.
  revert w. induction links as [|link rest IH]; intros w; simpl; [done|].
  destruct (fetch_page w link) as [w1 result]. specialize (IH w1).
  destruct (fetch_all w1 rest) as [w2 results]. simpl in *. by rewrite IH.
Qed.

Lemma records_of_In link page results :
  In (link, Some page) results -> In (extract_article_data page link) (records_of results).
Proof.
  induction results as [|[l [p|]] rest IH]; [done| |].
  - intros [[= -> ->]|Hin]; [by left|]. right. by apply IH.
  - intros [[=]|Hin]. by apply IH.
Qed.

(** C9: when the fetch of a listing page fails, the loop ends there,
    with no further request, and the articles collected so far are what
    the run ends with and writes out; when the fetch of an article
    fails, that article is left out and the loop goes on with the next
    link, keeping what was collected.

    The loop over the links of a page is pinned for every list of links
    and every network: it makes the request for each link, in the order
    of the list and whatever the results before were, adds the record of
    each page it got and prints a line for each request; so the article
    that comes after a failed one is collected.  Two runs show both
    failures: on [broken_site] the second listing page cannot be
    fetched and the run ends with the article of the first page, which
    it writes out; on [partial_site] the first article cannot be fetched
    and the second is collected. *)
Theorem fetch_failure_halts_listing_but_skips_article :
  (forall fuel cfg (st : crawl World) url w',
      current_url st = Some url ->
      goes_on cfg st = true ->
      fetch_page (world st) url = (w', None) ->
      exists st',
        scrape_loop (S fuel) cfg st = Some st'
        /\ world st' = w'
        /\ all_data st' = all_data st
        /\ csv_rows (all_data st') = csv_rows (all_data st))
  /\ (forall fuel cfg (w : World) st rows,
        scrape_activities fuel cfg w = Some (st, rows) ->
        rows = csv_rows (all_data st))
  /\ (forall total idx link rest (w w' : World) data out,
        fetch_page w link = (w', None) ->
        scrape_articles total idx (link :: rest) w data out
        = scrape_articles total (S idx) rest w' data (out ++ [ArticleFailed idx total]))
  /\ (forall total idx article_links (w : World) data out,
        data `prefix_of` (scrape_articles total idx article_links w data out).1.2)
  /\ (forall total idx article_links (w : World) data out,
        scrape_articles total idx article_links w data out
        = let '(w', results) := fetch_all w article_links in
          (w', data ++ records_of results, out ++ reports_of total idx results))
  /\ (forall (w : World) article_links,
        List.map fst (fetch_all w article_links).2 = article_links)
  /\ (forall total idx article_links (w : World) data out link page,
        In (link, Some page) (fetch_all w article_links).2 ->
        In (extract_article_data page link)
           (scrape_articles total idx article_links w data out).1.2)
  /\ (@scrape_loop plain_urls _ (served broken_site) 1 (Config home (Some 1%nat))
        (Crawl [] [] 0 (Some home) [])
      = Some after_first_page
      /\ @fetch_page _ (served broken_site) (world after_first_page) page_2
         = ([home; article_2; page_2; page_2], None)
      /\ @scrape_activities plain_urls _ (served broken_site) 2 (Config home None) []
         = Some (Crawl [home; article_2; page_2; page_2] [record_2] 2 (Some page_2)
                   [ProcessingPage 1 home; FoundArticles 2; ArticleOK 1 2;
                    ArticleFailed 2 2; ProcessingPage 2 page_2; ErrorProcessingPage],
                 [[py "Title"; py "Date"; py "Description"; py "Link"];
                  [py "Two"; py "2024-03-15"; py "Held on March 15, 2024."; article_2]]))
  /\ (@fetch_all _ (served partial_site) [home] [article_1; article_2]
      = ([home; article_1; article_2], [(article_1, None); (article_2, Some article_page)])
      /\ @scrape_activities plain_urls _ (served partial_site) 1 (Config home None) []
         = Some (Crawl [home; article_1; article_2] [record_2] 1 None
                   [ProcessingPage 1 home; FoundArticles 2; ArticleFailed 1 2;
                    ArticleOK 2 2; NoNextPage],
                 [[py "Title"; py "Date"; py "Description"; py "Link"];
                  [py "Two"; py "2024-03-15"; py "Held on March 15, 2024."; article_2]])).
Proof.
  split; [|split; [|split; [|split; [|split; [|split; [|split; [|split]]]]]]].
  - intros fuel cfg st url w' Hurl Hgo Hfetch.
    cbn [scrape_loop]. rewrite Hgo, Hurl. unfold scrape_page. rewrite Hfetch.
    eexists. split; [reflexivity|]. done.
  - intros fuel cfg w st rows. unfold scrape_activities.
    destruct (scrape_loop _ _ _); simpl; [|done]. by intros [= <- <-].
  - intros total idx link rest w w' data out Hfetch. simpl. by rewrite Hfetch.
  - intros total idx article_links w data out.
    pose proof (scrape_articles_spec total idx article_links w data out) as Hs.
    destruct (scrape_articles _ _ _ _ _ _) as [[w2 data2] out2]. by destruct Hs.
  - apply scrape_articles_fetch_all.
  - apply fetch_all_links.
  - intros total idx article_links w data out link page Hin.
    rewrite scrape_articles_fetch_all.
    destruct (fetch_all w article_links) as [w' results]. cbn [fst snd] in *.
    apply in_or_app. right. by apply records_of_In.
  - repeat split; vm_compute; reflexivity.
  - split; vm_compute; reflexivity.
Qed.

End FetchFailures.

Lemma fetch_failure_halts_listing_but_skips_article_witness :
  (exists st',
      @scrape_loop plain_urls _ (served broken_site) 1 (Config home None) after_first_page
      = Some st'
      /\ world st' = [home; article_2; page_2; page_2]
      /\ all_data st' = [record_2]
      /\ csv_rows (all_data st') = csv_rows [record_2])
  /\ csv_rows [record_2]
     = csv_rows (all_data (Crawl [home; article_1; article_2] [record_2] 1 None
                             [ProcessingPage 1 home; FoundArticles 2; ArticleFailed 1 2;
                              ArticleOK 2 2; NoNextPage]))
  /\ @scrape_articles _ (served partial_site) 2 1 [article_1; article_2] [home] [] []
     = @scrape_articles _ (served partial_site) 2 2 [article_2] [home; article_1] []
         [ArticleFailed 1 2]
  /\ In (extract_article_data article_page article_2)
        (@scrape_articles _ (served partial_site) 2 1 [article_1; article_2] [home] [] []).1.2.
Proof.
  split; [|split; [|split]].
  - apply (proj1 (@fetch_failure_halts_listing_but_skips_article
                    plain_urls _ (served broken_site))
             0%nat (Config home None) after_first_page page_2
             [home; article_2; page_2; page_2]).
    + reflexivity.
    + vm_compute. reflexivity.
    + vm_compute. reflexivity.
  - apply (proj1 (proj2 (@fetch_failure_halts_listing_but_skips_article
                           plain_urls _ (served partial_site)))
             1%nat (Config home None) []).
    vm_compute. reflexivity.
  - apply (proj1 (proj2 (proj2 (@fetch_failure_halts_listing_but_skips_article
                                  plain_urls _ (served partial_site))))
             2%nat 1%nat article_1 [article_2] [home] [home; article_1] [] []).
    vm_compute. reflexivity.
  - apply (proj1 (proj2 (proj2 (proj2 (proj2 (proj2 (proj2
             (@fetch_failure_halts_listing_but_skips_article
                plain_urls _ (served partial_site))))))))
             2%nat 1%nat [article_1; article_2] [home] [] [] article_2 article_page).
    vm_compute. right. left. reflexivity.
Defined.

(** * Further properties *)

(** ** Text: what [clean_text] keeps and what it fixes *)

Arguments clean_text : simpl never.
Arguments parse_date_string : simpl never.

Lemma head_rev (s : str) : head (rev s) = last s.
Proof. rewrite <- (rev_involutive s) at 2. by rewrite last_rev. Qed.

Lemma lstrip_by_fixed p s :
  from_option (fun c => p c = false) True (head s) -> lstrip_by p s = s.
Proof. destruct s as [|c s]; simpl; [done|]. by intros ->. Qed.

Lemma rstrip_by_fixed p s :
  from_option (fun c => p c = false) True (last s) -> rstrip_by p s = s.
Proof.
  intros Hs. unfold rstrip_by.
  rewrite lstrip_by_fixed by (by rewrite head_rev).
  apply rev_involutive.
Qed.

Lemma strip_fixed s :
  from_option (fun c => isspace c = false) True (head s) ->
  from_option (fun c => isspace c = false) True (last s) ->
  strip s = s.
Proof.
  intros Hh Hl. unfold strip. rewrite (lstrip_by_fixed _ _ Hh).
  by apply rstrip_by_fixed.
Qed.

Lemma head_strip s :
  from_option (fun c => isspace c = false) True (head (strip s)).
Proof.
  unfold strip. pose proof (head_lstrip_by isspace s) as Hh.
  destruct (lstrip_by isspace s) as [|c y]; [done|]. simpl in Hh.
  by rewrite rstrip_by_cons.
Qed.

Lemma last_strip s :
  from_option (fun c => isspace c = false) True (last (strip s)).
Proof. apply last_rstrip_by. Qed.

Lemma strip_idempotent s : strip (strip s) = strip s.
Proof. apply strip_fixed; [apply head_strip|apply last_strip]. Qed.

Lemma collapse_nothing p repl b s :
  Forall (fun c => p c = false) s -> collapse p repl b s = s.
Proof.
  intros Hs. revert b. induction Hs as [|c s Hc _ IH]; intros b; simpl; [done|].
  by rewrite Hc, IH.
Qed.

Lemma collapse_tidy s :
  Forall (fun c => isspace c = true -> c = 32) s ->
  no_double_space s ->
  collapse isspace [32] false s = s.
Proof.
  induction s as [|c s IH]; [done|].
  intros Hw Hd. apply Forall_cons in Hw as [Hc Hw]. destruct Hd as [Hcd Hd].
  simpl. destruct (isspace c) eqn:E.
  - rewrite (Hc eq_refl) in *. simpl. f_equal.
    destruct s as [|c2 s]; [done|].
    assert (isspace c2 = false) as E2.
    { destruct (isspace c2) eqn:E2; [|done].
      apply Forall_cons in Hw as [Hc2 _]. destruct Hcd. by rewrite Hc2. }
    specialize (IH Hw Hd). simpl in IH |- *. by rewrite E2 in IH |- *.
  - f_equal. by apply IH.
Qed.

(** The four facts about the outcome of [clean_text] that the proofs
    below start from. *)
Lemma clean_text_tidy text :
  Forall (fun c => isspace c = true -> c = 32) (clean_text text)
  /\ no_double_space (clean_text text)
  /\ from_option (fun c => isspace c = false) True (head (clean_text text))
  /\ from_option (fun c => isspace c = false) True (last (clean_text text)).
Proof.
  destruct text as [[|c0 text]|]; [by repeat split; try constructor|
                                   |by repeat split; try constructor].
  unfold clean_text, spaces_re. rewrite sub_run_collapse.
  change (py " ") with [32].
  set (t2 := collapse isspace [32] false (sub newlines_re [32] (c0 :: text))).
  pose proof (collapse_spaces_only false (sub newlines_re [32] (c0 :: text))) as H1.
  destruct (collapse_no_double_space false (sub newlines_re [32] (c0 :: text)))
    as [H2 _].
  fold t2 in H1, H2.
  split; [|split; [|split; [apply head_strip|apply last_strip]]].
  - unfold strip.
    destruct (lstrip_by_suffix isspace t2) as [l1 Hl1].
    destruct (rstrip_by_prefix isspace (lstrip_by isspace t2)) as [l2 Hl2].
    rewrite Hl1, Hl2 in H1.
    apply Forall_app in H1 as [_ H1]. by apply Forall_app in H1 as [H1 _].
  - unfold strip.
    destruct (lstrip_by_suffix isspace t2) as [l1 Hl1].
    destruct (rstrip_by_prefix isspace (lstrip_by isspace t2)) as [l2 Hl2].
    rewrite Hl1, Hl2 in H2.
    by apply no_double_space_app_r, no_double_space_app_l in H2.
Qed.

(** A text that is tidy already is returned as it is. *)
Lemma clean_text_fixed s :
  Forall (fun c => isspace c = true -> c = 32) s ->
  no_double_space s ->
  from_option (fun c => isspace c = false) True (head s) ->
  from_option (fun c => isspace c = false) True (last s) ->
  clean_text (Some s) = s.
Proof.
  intros Hw Hd Hh Hl. destruct s as [|c s]; [done|].
  unfold clean_text, newlines_re, spaces_re. rewrite !sub_run_collapse.
  change (py " ") with [32].
  rewrite (collapse_nothing (fun c => (c =? 10) || (c =? 13) || (c =? 9)) [32] false).
  - rewrite collapse_tidy by done. by apply strip_fixed.
  - eapply Forall_impl; [exact Hw|]. intros x Hx. simpl in Hx.
    destruct (x =? 10) eqn:E10; [apply N.eqb_eq in E10; subst; by specialize (Hx eq_refl)|].
    destruct (x =? 13) eqn:E13; [apply N.eqb_eq in E13; subst; by specialize (Hx eq_refl)|].
    destruct (x =? 9) eqn:E9; [apply N.eqb_eq in E9; subst; by specialize (Hx eq_refl)|].
    done.
Qed.

(** X1: cleaning a text twice is cleaning it once. *)
Theorem clean_text_idempotent (text : option str) :
  clean_text (Some (clean_text text)) = clean_text text.
Proof.
  destruct (clean_text_tidy text) as (H1 & H2 & H3 & H4).
  by apply clean_text_fixed.
Qed.

Lemma filter_collapse p repl b s :
  (forall c, p c = true -> isspace c = true) ->
  Forall (fun c => isspace c = true) repl ->
  List.filter (fun c => negb (isspace c)) (collapse p repl b s)
  = List.filter (fun c => negb (isspace c)) s.
Proof.
  intros Hp Hrepl.
  assert (List.filter (fun c => negb (isspace c)) repl = []) as Hr.
  { induction Hrepl as [|c r Hc _ IH]; simpl; [done|]. by rewrite Hc. }
  revert b. induction s as [|c s IH]; intros b; simpl; [done|].
  destruct (p c) eqn:E.
  - rewrite (Hp c E). simpl. rewrite List.filter_app, IH.
    destruct b; simpl; [done|]. by rewrite Hr.
  - simpl. by rewrite IH.
Qed.

Lemma filter_lstrip_space s :
  List.filter (fun c => negb (isspace c)) (lstrip_by isspace s)
  = List.filter (fun c => negb (isspace c)) s.
Proof.
  induction s as [|c s IH]; simpl; [done|].
  destruct (isspace c) eqn:E; simpl; [done|]. by rewrite E.
Qed.

Lemma filter_strip_space s :
  List.filter (fun c => negb (isspace c)) (strip s)
  = List.filter (fun c => negb (isspace c)) s.
Proof.
  unfold strip, rstrip_by.
  rewrite List.filter_rev, filter_lstrip_space, <- List.filter_rev, rev_involutive.
  apply filter_lstrip_space.
Qed.

(** X2: [clean_text] changes whitespace only: the code points of the text
    that are not whitespace come out all, unchanged and in their order. *)
Theorem clean_text_keeps_non_whitespace (text : str) :
  List.filter (fun c => negb (isspace c)) (clean_text (Some text))
  = List.filter (fun c => negb (isspace c)) text.
Proof.
  destruct text as [|c0 text]; [done|].
  unfold clean_text, newlines_re, spaces_re. rewrite !sub_run_collapse.
  change (py " ") with [32].
  assert (Forall (fun c => isspace c = true) [32]) as Hsp by (by repeat constructor).
  rewrite filter_strip_space.
  rewrite (filter_collapse isspace [32] false) by done.
  apply filter_collapse; [|done].
  intros c Hc. apply orb_prop in Hc as [Hc|Hc];
    [apply orb_prop in Hc as [Hc|Hc]|]; apply N.eqb_eq in Hc; by subst.
Qed.

(** X3: the outcome is empty exactly for [None] and for a text of
    nothing but whitespace, the empty text among them. *)
Theorem clean_text_empty_iff (text : option str) :
  clean_text text = []
  <-> text = None \/ exists s, text = Some s /\ forallb isspace s = true.
Proof.
  destruct text as [s|]; [|split; [by left|done]].
  split.
  - intros Hempty. right. exists s. split; [done|].
    pose proof (clean_text_keeps_non_whitespace s) as Hk.
    rewrite Hempty in Hk. simpl in Hk.
    apply forallb_forall. intros c Hc.
    destruct (isspace c) eqn:E; [done|].
    assert (In c (List.filter (fun c => negb (isspace c)) s)) as Hin.
    { apply List.filter_In. by rewrite E. }
    by rewrite <- Hk in Hin.
  - intros [?|(s' & [= <-] & Hall)]; [done|].
    pose proof (clean_text_keeps_non_whitespace s) as Hk.
    destruct (clean_text_tidy (Some s)) as (_ & _ & Hh & _).
    destruct (clean_text (Some s)) as [|c out]; [done|].
    simpl in Hh, Hk. rewrite Hh in Hk. simpl in Hk.
    assert (In c (List.filter (fun c => negb (isspace c)) s)) as Hin.
    { rewrite <- Hk. by left. }
    apply List.filter_In in Hin as [Hin Hc].
    rewrite forallb_forall in Hall. rewrite (Hall c Hin) in Hc. done.
Qed.

(** ** Dates: whitespace, the canonical form, and what is extracted *)

Lemma parse_date_string_blank :
  try_iso [] = None /\ try_formats [] = None
  /\ try_arabic [] = None /\ try_english [] = None.
Proof. repeat split; vm_compute; reflexivity. Qed.

(** X4: whitespace around a date text does not matter. *)
Theorem parse_date_string_ignores_outer_whitespace (s : str) :
  parse_date_string (Some s) = parse_date_string (Some (strip s)).
Proof.
  destruct parse_date_string_blank as (B1 & B2 & B3 & B4).
  destruct s as [|c s]; [done|].
  rewrite parse_date_string_cascade by done.
  destruct (strip (c :: s)) as [|c' s'] eqn:E.
  - by rewrite B1, B2, B3, B4.
  - rewrite parse_date_string_cascade by done.
    by rewrite <- E, strip_idempotent.
Qed.

Lemma digit_bounds c : is_ascii_digit c = true -> 48 <= c <= 57.
Proof.
  unfold is_ascii_digit. intros [H1 H2]%andb_prop.
  apply N.leb_le in H1, H2. lia.
Qed.

Lemma digit_not_space c : is_ascii_digit c = true -> isspace c = false.
Proof.
  intros Hc%digit_bounds. unfold isspace.
  repeat match goal with
         | |- context [?a <=? ?b] => destruct (N.leb_spec a b); try lia
         | |- context [?a =? ?b] => destruct (N.eqb_spec a b); try lia
         end; reflexivity.
Qed.

Lemma parse_digits_app ds rest acc :
  forallb is_ascii_digit ds = true ->
  parse_digits (length ds) acc (ds ++ rest) = Some (digits_value ds acc, rest).
Proof.
  revert acc. induction ds as [|c ds IH]; intros acc Hds; simpl in *; [done|].
  apply andb_prop in Hds as [Hc Hds]. rewrite Hc. by apply IH.
Qed.

Lemma zfill_ok_4 n : n < 10000 -> zfill_ok 4 n = true.
Proof.
  intros Hn.
  assert (forallb (fun i => zfill_ok 4 (N.of_nat i)) (seq 0 (N.to_nat 10000)) = true) as Hall
    by (vm_compute; reflexivity).
  rewrite forallb_forall in Hall.
  rewrite <- (N2Nat.id n). apply Hall, in_seq. lia.
Qed.

Lemma zfill_ok_2 n : n < 100 -> zfill_ok 2 n = true.
Proof.
  intros Hn.
  assert (forallb (fun i => zfill_ok 2 (N.of_nat i)) (seq 0 (N.to_nat 100)) = true) as Hall
    by (vm_compute; reflexivity).
  rewrite forallb_forall in Hall.
  rewrite <- (N2Nat.id n). apply Hall, in_seq. lia.
Qed.

Lemma zfill_ok_spec w n :
  zfill_ok w n = true ->
  length (zfill w n) = w
  /\ forallb is_ascii_digit (zfill w n) = true
  /\ digits_value (zfill w n) 0 = n.
Proof.
  unfold zfill_ok. intros [[H1 H2]%andb_prop H3]%andb_prop.
  by apply Nat.eqb_eq in H1; apply N.eqb_eq in H3.
Qed.

Lemma valid_date_bounds y m d :
  valid_date y m d = true -> y < 10000 /\ m < 100 /\ d < 100.
Proof.
  unfold valid_date, days_in_month. intros Hv.
  repeat (apply andb_prop in Hv as [Hv ?]).
  repeat match goal with H : (_ <=? _) = true |- _ => apply N.leb_le in H end.
  repeat case_match; lia.
Qed.

Lemma replace_char_absent old new s :
  Forall (fun c => c <> old) s -> replace_char old new s = s.
Proof.
  unfold replace_char. induction 1 as [|c s Hc _ IH]; simpl; [done|].
  destruct (N.eqb_spec c old); [done|]. simpl. by rewrite IH.
Qed.

Lemma parse_digits_4 a b c d rest :
  forallb is_ascii_digit [a; b; c; d] = true ->
  parse_digits 4 0 (a :: b :: c :: d :: rest) = Some (digits_value [a; b; c; d] 0, rest).
Proof. exact (parse_digits_app [a; b; c; d] rest 0). Qed.

Lemma parse_digits_2 a b rest :
  forallb is_ascii_digit [a; b] = true ->
  parse_digits 2 0 (a :: b :: rest) = Some (digits_value [a; b] 0, rest).
Proof. exact (parse_digits_app [a; b] rest 0). Qed.

(** [fromisoformat] reads a date written [YYYY-MM-DD] back. *)
Lemma fromisoformat_calendar a b c d e f g h y m dd :
  forallb is_ascii_digit [a; b; c; d; e; f; g; h] = true ->
  digits_value [a; b; c; d] 0 = y ->
  digits_value [e; f] 0 = m ->
  digits_value [g; h] 0 = dd ->
  valid_date y m dd = true ->
  fromisoformat [a; b; c; d; 45; e; f; 45; g; h] = Some (YMD y m dd).
Proof.
  intros Hdig Hy Hm Hd Hv. cbn [forallb] in Hdig.
  repeat (apply andb_prop in Hdig as [? Hdig]).
  assert ((e =? 87) = false) as He.
  { apply N.eqb_neq. pose proof (digit_bounds e ltac:(assumption)). lia. }
  unfold fromisoformat.
  assert (find_isoformat_datetime_separator [a; b; c; d; 45; e; f; 45; g; h]
          = Some 10%nat) as ->.
  { unfold find_isoformat_datetime_separator.
    change (chr "-") with 45. change (chr "W") with 87. simpl. by rewrite He. }
  cbn [mbind option_bind].
  change (Nat.ltb (length [a; b; c; d; 45; e; f; 45; g; h]) 7) with false.
  cbv iota.
  assert (parse_isoformat_date [a; b; c; d; 45; e; f; 45; g; h] 10
          = Some (y, m, dd)) as ->.
  { unfold parse_isoformat_date.
    change (chr "-") with 45. change (chr "W") with 87.
    rewrite parse_digits_4
      by all_digits.
    cbn [mbind option_bind]. change (peek [45; e; f; 45; g; h] =? 45) with true.
    cbv iota. change (tl [45; e; f; 45; g; h]) with [e; f; 45; g; h].
    change (peek [e; f; 45; g; h]) with e. rewrite He.
    rewrite parse_digits_2 by all_digits.
    cbn [mbind option_bind]. change (peek [45; g; h] =? 45) with true.
    cbv iota. cbn [mbind option_bind]. change (tl [45; g; h]) with [g; h].
    rewrite parse_digits_2 by all_digits.
    cbn [mbind option_bind]. by rewrite Hy, Hm, Hd. }
  cbn [mbind option_bind].
  change (Nat.ltb 10 (length [a; b; c; d; 45; e; f; 45; g; h])) with false.
  cbv iota. cbn [mbind option_bind].
  change ((0 <? 86400 * 1000000) && (0 <=? 23) && (0 <=? 59) && (0 <=? 59)) with true.
  cbv iota. unfold date_new. by rewrite Hv.
Qed.

(** X5: the canonical form is a fixed point.  For a date that exists,
    of a year from 1000 on, the text that [strftime] prints parses to
    that very text. *)
Theorem parse_date_string_canonical_round_trip (dt : date) :
  valid_date (year dt) (month dt) (day dt) = true ->
  1000 <= year dt ->
  parse_date_string (Some (strftime_Ymd dt)) = Some (strftime_Ymd dt).
Proof.
  intros Hv _. destruct dt as [y m dd]. simpl in Hv.
  destruct (valid_date_bounds _ _ _ Hv) as (By & Bm & Bd).
  destruct (zfill_ok_spec _ _ (zfill_ok_4 y By)) as (Ly & Dy & Vy).
  destruct (zfill_ok_spec _ _ (zfill_ok_2 m Bm)) as (Lm & Dm & Vm).
  destruct (zfill_ok_spec _ _ (zfill_ok_2 dd Bd)) as (Ld & Dd & Vd).
  unfold strftime_Ymd. simpl year. simpl month. simpl day.
  change (py "-") with [45].
  destruct (zfill 4 y) as [|a [|b [|c [|d [|? ?]]]]] eqn:Ey; try discriminate Ly.
  destruct (zfill 2 m) as [|e [|f [|? ?]]] eqn:Em; try discriminate Lm.
  destruct (zfill 2 dd) as [|g [|h [|? ?]]] eqn:Ed; try discriminate Ld.
  simpl app.
  assert (forallb is_ascii_digit [a; b; c; d; e; f; g; h] = true) as Hdig.
  { cbn [forallb] in *. repeat (apply andb_prop in Dy as [? Dy]).
    repeat (apply andb_prop in Dm as [? Dm]).
    repeat (apply andb_prop in Dd as [? Dd]).
    all_digits. }
  pose proof (fromisoformat_calendar a b c d e f g h y m dd Hdig Vy Vm Vd Hv) as Hiso.
  cbn [forallb] in Hdig. repeat (apply andb_prop in Hdig as [? Hdig]).
  rewrite parse_date_string_cascade by done.
  assert (strip [a; b; c; d; 45; e; f; 45; g; h] = [a; b; c; d; 45; e; f; 45; g; h])
    as ->.
  { apply strip_fixed; simpl; by apply digit_not_space. }
  unfold try_iso. rewrite replace_char_absent.
  - rewrite Hiso. simpl. unfold strftime_Ymd. simpl year. simpl month. simpl day.
    change (py "-") with [45]. by rewrite Ey, Em, Ed.
  - change (chr "Z") with 90.
    repeat (apply Forall_cons; split;
            [first [discriminate
                   | match goal with
                     | H : is_ascii_digit ?x = true |- ?x <> _ =>
                         pose proof (digit_bounds x H); lia
                     end]|]).
    constructor.
Qed.

Lemma parse_date_string_canonical_round_trip_witness :
  parse_date_string (Some (strftime_Ymd (YMD 2024 3 15)))
  = Some (strftime_Ymd (YMD 2024 3 15)).
Proof.
  apply (parse_date_string_canonical_round_trip (YMD 2024 3 15)).
  - reflexivity.
  - simpl. lia.
Defined.

Lemma if_truthy_Some v out : if_truthy v = Some out -> v = Some out.
Proof. unfold if_truthy. by destruct (truthy v). Qed.

Lemma date_of_time_tag_parsed soup out :
  date_of_time_tag soup = Some out -> exists x, parse_date_string x = Some out.
Proof.
  unfold date_of_time_tag. intros Hs.
  destruct (find (named "time") soup) as [time_tag|]; [|done]. cbn [mbind option_bind] in Hs.
  destruct (truthy (get time_tag "datetime")).
  - destruct (if_truthy (parse_date_string (get time_tag "datetime"))) eqn:E.
    + injection Hs as ->. eexists. by apply if_truthy_Some.
    + eexists. by apply if_truthy_Some.
  - eexists. by apply if_truthy_Some.
Qed.

Lemma date_of_meta_parsed soup name out :
  date_of_meta soup name = Some out -> exists x, parse_date_string x = Some out.
Proof.
  unfold date_of_meta. intros Hs.
  destruct (match find _ soup with Some m => Some m | None => _ end) as [meta|];
    [|done].
  cbn [mbind option_bind] in Hs. destruct (truthy (get meta "content")); [|done].
  eexists. by apply if_truthy_Some.
Qed.

Lemma extract_event_date_parsed soup out :
  extract_event_date soup = Some out -> exists x, parse_date_string x = Some out.
Proof.
  unfold extract_event_date. intros Hs.
  destruct (date_of_time_tag soup) eqn:E1.
  { injection Hs as ->. eauto using date_of_time_tag_parsed. }
  destruct (first_some (date_of_meta soup) meta_names) eqn:E2.
  { injection Hs as ->. apply first_some_Some in E2 as (name & _ & E2).
    eauto using date_of_meta_parsed. }
  destruct (first_some date_of_element _) eqn:E3.
  { injection Hs as ->. apply first_some_Some in E3 as (el & _ & E3).
    unfold date_of_element in E3. eexists. by apply if_truthy_Some. }
  destruct (date_of_body_english _) eqn:E4.
  { injection Hs as ->. unfold date_of_body_english in E4.
    destruct (search false english_re _); [|done]. cbn [mbind option_bind] in E4.
    eexists. by apply if_truthy_Some. }
  unfold date_of_body_arabic in Hs.
  destruct (search false (arabic_re arabic_months_regex) _); [|done].
  cbn [mbind option_bind] in Hs. eexists. by apply if_truthy_Some.
Qed.

(** X6: whatever step of [extract_event_date] finds the date, what is
    returned is a date that exists, printed as year-month-day; no other
    text of the page comes out as a date. *)
Theorem extract_event_date_is_a_real_date soup out :
  extract_event_date soup = Some out ->
  exists dt, valid_date (year dt) (month dt) (day dt) = true
             /\ out = strftime_Ymd dt.
Proof.
  intros (x & Hx)%extract_event_date_parsed.
  eauto using parse_date_string_printed.
Qed.

Lemma extract_event_date_is_a_real_date_witness :
  exists dt, valid_date (year dt) (month dt) (day dt) = true
             /\ py "2024-03-15" = strftime_Ymd dt.
Proof.
  apply (extract_event_date_is_a_real_date (BeautifulSoup class_date_page)).
  vm_compute. reflexivity.
Defined.

Lemma summary_of_containers_clean soup selectors :
  exists t, summary_of_containers soup selectors = clean_text t.
Proof.
  induction selectors as [|sel rest IH]; simpl; [by exists None|].
  destruct (find _ soup) as [container|]; [|done].
  destruct (find (named "p") container) as [paragraph|]; [|done].
  by eexists.
Qed.

Lemma extract_title_clean soup : exists t, extract_title soup = clean_text t.
Proof.
  unfold extract_title.
  destruct (find (named "h1") soup); [by eexists|].
  destruct (find (named "title") soup); [by eexists|by exists None].
Qed.

Lemma extract_summary_clean soup : exists t, extract_summary soup = clean_text t.
Proof.
  unfold extract_summary.
  assert (Hfallback : exists t,
             match find (named "p") soup with
             | Some paragraph => clean_text (Some (get_text paragraph))
             | None => []
             end = clean_text t).
  { destruct (find (named "p") soup); [by eexists|by exists None]. }
  destruct (find (fun n => named "meta" n && attr_is "name" (py "description") n) soup)
    as [m|].
  - destruct (truthy (get m "content")).
    + destruct (clean_text (getitem m "content")) as [|c s] eqn:E.
      * destruct (summary_of_containers_clean soup content_selectors) as [t Ht].
        destruct (summary_of_containers soup content_selectors); [done|].
        by exists t.
      * exists (getitem m "content"). by rewrite E.
    + destruct (summary_of_containers_clean soup content_selectors) as [t Ht].
      destruct (summary_of_containers soup content_selectors); [done|].
      by exists t.
  - destruct (summary_of_containers_clean soup content_selectors) as [t Ht].
    destruct (summary_of_containers soup content_selectors); [done|].
    by exists t.
Qed.

(** X7: the record of an article is well formed whatever the page is.
    Title and description are clean text (cleaning them again changes
    nothing, so they hold no line break, no tab, no run of spaces and no
    outer whitespace); the date is empty or a date that exists; the link
    is the URL the page was asked for. *)
Theorem extract_article_data_well_formed page article_url :
  clean_text (Some (Title (extract_article_data page article_url)))
  = Title (extract_article_data page article_url)
  /\ clean_text (Some (Description (extract_article_data page article_url)))
     = Description (extract_article_data page article_url)
  /\ (Date (extract_article_data page article_url) = []
      \/ exists dt, valid_date (year dt) (month dt) (day dt) = true
                    /\ Date (extract_article_data page article_url) = strftime_Ymd dt)
  /\ Link (extract_article_data page article_url) = article_url.
Proof.
  unfold extract_article_data. cbn [Title Description Date Link].
  split; [|split; [|split; [|done]]].
  - destruct (extract_title_clean (BeautifulSoup page)) as [t ->].
    apply clean_text_idempotent.
  - destruct (extract_summary_clean (BeautifulSoup page)) as [t ->].
    apply clean_text_idempotent.
  - destruct (extract_event_date (BeautifulSoup page)) as [out|] eqn:E; [|by left].
    destruct (extract_event_date_parsed _ _ E) as [x Hx].
    rewrite (parse_date_string_truthy _ _ Hx). right.
    eauto using parse_date_string_printed.
Qed.

(** ** Link discovery: where the links come from and which are found *)

Lemma node_induction (P : node -> Prop) :
  (forall s, P (NavigableString s)) ->
  (forall name attrs contents, Forall P contents -> P (Tag name attrs contents)) ->
  forall n, P n.
Proof.
  intros Hs Ht. fix IH 1. intros [s|name attrs contents]; [apply Hs|].
  apply Ht. induction contents as [|c cs IHcs]; constructor; [apply IH|apply IHcs].
Qed.

Lemma descendants_Tag name attrs contents :
  descendants (Tag name attrs contents)
  = flat_map (fun c => c :: descendants c) contents.
Proof.
  simpl. induction contents as [|c cs IH]; [done|]. simpl. by rewrite IH.
Qed.

Lemma descendants_trans n d x :
  In d (descendants n) -> In x (descendants d) -> In x (descendants n).
Proof.
  revert d x. induction n as [s|name attrs contents IH] using node_induction;
    intros d x Hd Hx; [done|].
  rewrite descendants_Tag in *.
  apply in_flat_map in Hd as (c & Hc & Hd). apply in_flat_map. exists c.
  split; [done|]. rewrite Forall_forall in IH.
  destruct Hd as [<-|Hd]; [by right|]. right.
  apply (IH c (proj2 (list_elem_of_In _ _) Hc) d x Hd Hx).
Qed.

Lemma find_all_In f n x :
  In x (find_all f n) <-> In x (descendants n) /\ is_tag x = true /\ f x = true.
Proof.
  unfold find_all. rewrite List.filter_In, andb_true_iff. tauto.
Qed.

Lemma find_Some_In f n x : find f n = Some x -> In x (find_all f n).
Proof.
  unfold find. destruct (find_all f n) as [|y l]; [done|].
  intros [= ->]. by left.
Qed.

Lemma find_all_below f g n el x :
  In el (find_all g n) -> In x (find_all f el) -> In x (find_all f n).
Proof.
  rewrite !find_all_In. intros (Hel & _) (Hx & ? & ?).
  eauto using descendants_trans.
Qed.

Lemma is_link_href link : is_link link = true -> is_Some (getitem link "href").
Proof.
  unfold is_link, has_attr, getitem. intros [_ Hh]%andb_prop.
  destruct (get link "href"); [by eexists|done].
Qed.

Section LinkCoverage.
Context `{UrlLib}.

Lemma push_links url st u :
  u ∈ (push url st).2 <-> u ∈ st.2 \/ u = url.
Proof. unfold push. simpl. rewrite elem_of_app, list_elem_of_singleton. tauto. Qed.

Lemma first_links_sound soup g base_url elements st st' :
  (forall el, In el elements -> In el (find_all g soup)) ->
  first_links base_url elements st = Some st' ->
  (forall u, u ∈ st.2 -> resolves_to soup base_url u) ->
  forall u, u ∈ st'.2 -> resolves_to soup base_url u.
Proof.
  revert st. induction elements as [|el rest IH]; intros st Hels Hrun Hst;
    simpl in Hrun.
  - by injection Hrun as <-.
  - assert (forall el', In el' rest -> In el' (find_all g soup)) as Hrest
        by (intros; apply Hels; by right).
    fold is_link in Hrun.
    destruct (find is_link el) as [link|] eqn:Hfind; [|by apply (IH st)].
    destruct (getitem link "href") as [href|] eqn:Hhref; [|done]. simpl in Hrun.
    destruct (urljoin base_url href) as [url|] eqn:Hjoin; [|done]. simpl in Hrun.
    apply (IH _ Hrest Hrun). intros u Hu.
    assert (resolves_to soup base_url url) as Hurl.
    { exists link, href. split; [|done].
      eapply find_all_below; [apply Hels; by left|by apply find_Some_In]. }
    case_bool_decide; [|by apply Hst].
    apply push_links in Hu as [Hu| ->]; [by apply Hst|done].
Qed.

Lemma internal_links_sound soup base_url domain anchors st st' :
  (forall link, In link anchors -> In link (find_all is_link soup)) ->
  internal_links base_url domain anchors st = Some st' ->
  (forall u, u ∈ st.2 -> resolves_to soup base_url u) ->
  forall u, u ∈ st'.2 -> resolves_to soup base_url u.
Proof.
  revert st. induction anchors as [|link rest IH]; intros st Hin Hrun Hst;
    simpl in Hrun.
  - by injection Hrun as <-.
  - assert (forall l, In l rest -> In l (find_all is_link soup)) as Hrest
        by (intros; apply Hin; by right).
    destruct (getitem link "href") as [href|] eqn:Hhref; [|done]. simpl in Hrun.
    destruct (urljoin base_url href) as [url|] eqn:Hjoin; [|done]. simpl in Hrun.
    destruct (urlparse_netloc url) as [netloc|]; [|done]. simpl in Hrun.
    apply (IH _ Hrest Hrun). intros u Hu.
    assert (resolves_to soup base_url url) as Hurl.
    { exists link, href. split; [apply Hin; by left|done]. }
    destruct (endswith netloc domain && _); [|by apply Hst].
    case_bool_decide; [|by apply Hst].
    apply push_links in Hu as [Hu| ->]; [by apply Hst|done].
Qed.

(** X8: every URL that [extract_links] returns is the [href] of an
    anchor of the page, resolved against the base URL; nothing else
    gets into the list. *)
Theorem extract_links_only_resolved_anchors page base_url links u :
  extract_links page base_url = Some links ->
  u ∈ links ->
  resolves_to (BeautifulSoup page) base_url u.
Proof.
  unfold extract_links, container_and_heading_links. intros Hrun Hu.
  destruct (first_links base_url (find_all (named "article") _) _) as [st1|] eqn:H1;
    [|done].
  simpl in Hrun.
  destruct (first_links base_url (find_all (named_any _) _) st1) as [st2|] eqn:H2;
    [|done].
  simpl in Hrun.
  destruct (urlparse_netloc base_url) as [domain|]; [|done]. simpl in Hrun.
  destruct (internal_links _ _ _ st2) as [st3|] eqn:H3; [|done].
  injection Hrun as <-.
  refine (internal_links_sound _ _ _ _ _ _ (fun _ Hl => Hl) H3 _ u Hu).
  refine (first_links_sound _ _ _ _ _ _ (fun _ He => He) H2 _).
  refine (first_links_sound _ _ _ _ _ _ (fun _ He => He) H1 _).
  intros u' Hu'. simpl in Hu'. by apply elem_of_nil in Hu'.
Qed.

Lemma first_links_grows base_url elements st st' :
  first_links base_url elements st = Some st' -> st.1 ⊆ st'.1.
Proof.
  revert st. induction elements as [|el rest IH]; intros st Hrun; simpl in Hrun.
  - by injection Hrun as <-.
  - destruct (find _ el) as [link|]; [|by apply IH].
    destruct (getitem link "href") as [href|]; [|done]. simpl in Hrun.
    destruct (urljoin base_url href) as [url|]; [|done]. simpl in Hrun.
    apply IH in Hrun. case_bool_decide; [|done].
    unfold push in Hrun. simpl in Hrun. set_solver.
Qed.

Lemma internal_links_covers base_url domain anchors st st' :
  internal_links base_url domain anchors st = Some st' ->
  (st.1 ⊆ st'.1)
  /\ forall link href url netloc,
      In link anchors ->
      getitem link "href" = Some href ->
      urljoin base_url href = Some url ->
      urlparse_netloc url = Some netloc ->
      endswith netloc domain = true ->
      normalized url <> normalized base_url ->
      url ∈ st'.1.
Proof.
  unfold normalized.
  revert st. induction anchors as [|link rest IH]; intros st Hrun; simpl in Hrun.
  - injection Hrun as <-. split; [done|]. by intros ? ? ? ? [].
  - destruct (getitem link "href") as [href|] eqn:Hhref; [|done]. simpl in Hrun.
    destruct (urljoin base_url href) as [url|] eqn:Hjoin; [|done]. simpl in Hrun.
    destruct (urlparse_netloc url) as [netloc|] eqn:Hnet; [|done]. simpl in Hrun.
    apply IH in Hrun as [Hsub Hcov].
    assert (st.1 ⊆ st'.1) as Hst.
    { etrans; [|exact Hsub]. repeat case_match; unfold push; simpl; set_solver. }
    split; [done|].
    intros link' href' url' netloc' [<-|Hin] Hh Hj Hn He Hne;
      [|by eapply Hcov].
    rewrite Hhref in Hh. injection Hh as <-.
    rewrite Hjoin in Hj. injection Hj as <-.
    rewrite Hnet in Hn. injection Hn as <-.
    destruct (decide (url ∈ st.1)) as [Hseen|Hseen]; [by apply Hst|].
    apply Hsub. rewrite He, !bool_decide_true by done.
    unfold push. simpl. set_solver.
Qed.

(** X9: no link to the same site is missed.  An anchor with an [href]
    whose URL has a host that ends with the host of the base URL, and is
    not the base URL itself up to trailing slashes, has its URL in the
    list. *)
Theorem extract_links_finds_every_same_site_link
    page base_url links domain link href url netloc :
  extract_links page base_url = Some links ->
  urlparse_netloc base_url = Some domain ->
  In link (find_all is_link (BeautifulSoup page)) ->
  getitem link "href" = Some href ->
  urljoin base_url href = Some url ->
  urlparse_netloc url = Some netloc ->
  endswith netloc domain = true ->
  normalized url <> normalized base_url ->
  url ∈ links.
Proof.
  unfold extract_links, container_and_heading_links.
  intros Hrun Hdom Hlink Hhref Hjoin Hnet Hend Hne.
  destruct (first_links base_url (find_all (named "article") _) _) as [st1|] eqn:H1;
    [|done].
  simpl in Hrun.
  destruct (first_links base_url (find_all (named_any _) _) st1) as [st2|] eqn:H2;
    [|done].
  simpl in Hrun. rewrite Hdom in Hrun. simpl in Hrun.
  destruct (internal_links _ _ _ st2) as [st3|] eqn:H3; [|done].
  injection Hrun as <-.
  pose proof (first_links_spec _ _ _ _ H1 seen_links_empty) as [I1 _].
  pose proof (first_links_spec _ _ _ _ H2 I1) as [I2 _].
  pose proof (internal_links_spec _ _ _ _ _ H3 I2) as [[_ I3] _].
  apply I3.
  apply (proj2 (internal_links_covers _ _ _ _ _ H3) link href url netloc); done.
Qed.

End LinkCoverage.

Lemma extract_links_only_resolved_anchors_witness :
  @resolves_to plain_urls (BeautifulSoup listing_page) home article_1.
Proof.
  apply (@extract_links_only_resolved_anchors plain_urls listing_page home
           [article_1; article_2] article_1).
  - vm_compute. reflexivity.
  - constructor.
Defined.

Lemma extract_links_finds_every_same_site_link_witness :
  article_2 ∈ [article_1; article_2].
Proof.
  apply (@extract_links_finds_every_same_site_link plain_urls listing_page home
           [article_1; article_2] (py "www.univ-eloued.dz")
           (Tag (py "a") [(py "href", article_2)] [NavigableString (py "Two")])
           article_2 article_2 (py "www.univ-eloued.dz")).
  - vm_compute. reflexivity.
  - vm_compute. reflexivity.
  - vm_compute. right. right. left. reflexivity.
  - vm_compute. reflexivity.
  - vm_compute. reflexivity.
  - vm_compute. reflexivity.
  - vm_compute. reflexivity.
  - vm_compute. discriminate.
Defined.

(** ** Exceptions: the calls that the URL library refuses *)

Section Exceptions.
Context `{UrlLib}.

Lemma first_links_answered soup g base_url elements st :
  calls_answered soup base_url ->
  (forall el, In el elements -> In el (find_all g soup)) ->
  is_Some (first_links base_url elements st).
Proof.
  intros [_ Hcalls] Hels. revert st.
  induction elements as [|el rest IH]; intros st; simpl; [by eexists|].
  assert (forall el', In el' rest -> In el' (find_all g soup)) as Hrest
      by (intros; apply Hels; by right).
  fold is_link.
  destruct (find is_link el) as [link|] eqn:Hfind; [|by apply IH].
  assert (In link (find_all is_link soup)) as Hlink.
  { eapply find_all_below; [apply Hels; by left|by apply find_Some_In]. }
  destruct (is_link_href link) as [href Hhref].
  { by apply find_all_In in Hlink as (_ & _ & ?). }
  rewrite Hhref. simpl.
  destruct (Hcalls link href Hlink Hhref) as (url & -> & _). simpl. by apply IH.
Qed.

Lemma internal_links_answered soup base_url domain anchors st :
  calls_answered soup base_url ->
  (forall link, In link anchors -> In link (find_all is_link soup)) ->
  is_Some (internal_links base_url domain anchors st).
Proof.
  intros [_ Hcalls] Hin. revert st.
  induction anchors as [|link rest IH]; intros st; simpl; [by eexists|].
  assert (forall l, In l rest -> In l (find_all is_link soup)) as Hrest
      by (intros; apply Hin; by right).
  assert (In link (find_all is_link soup)) as Hlink by (apply Hin; by left).
  destruct (is_link_href link) as [href Hhref].
  { by apply find_all_In in Hlink as (_ & _ & ?). }
  rewrite Hhref. simpl.
  destruct (Hcalls link href Hlink Hhref) as (url & Hjoin & [netloc Hnet]).
  rewrite Hjoin. simpl. rewrite Hnet. simpl. by apply IH.
Qed.

Lemma internal_links_calls base_url domain anchors st st' :
  internal_links base_url domain anchors st = Some st' ->
  forall link href,
    In link anchors ->
    getitem link "href" = Some href ->
    exists url, urljoin base_url href = Some url /\ is_Some (urlparse_netloc url).
Proof.
  revert st. induction anchors as [|link rest IH]; intros st Hrun link' href' Hin Hh;
    simpl in Hrun; [done|].
  destruct (getitem link "href") as [href|] eqn:Hhref; [|done]. simpl in Hrun.
  destruct (urljoin base_url href) as [url|] eqn:Hjoin; [|done]. simpl in Hrun.
  destruct (urlparse_netloc url) as [netloc|] eqn:Hnet; [|done]. simpl in Hrun.
  destruct Hin as [<-|Hin]; [|by eapply IH].
  rewrite Hhref in Hh. injection Hh as <-. exists url. by rewrite Hnet.
Qed.

Lemma anchor_with_href_is_link soup f link c href :
  In link (find_all f soup) ->
  (forall n, f n = true -> named "a" n = true) ->
  get link "href" = Some (c :: href) ->
  In link (find_all is_link soup) /\ getitem link "href" = Some (c :: href).
Proof.
  intros (Hd & Ht & Hf)%find_all_In Hnamed Hget. split; [|done].
  apply find_all_In. split; [done|]. split; [done|].
  unfold is_link, has_attr. by rewrite (Hnamed _ Hf), Hget.
Qed.

Lemma next_by_text_answered soup current_url anchors :
  calls_answered soup current_url ->
  (forall link, In link anchors -> In link (find_all (named "a") soup)) ->
  is_Some (next_by_text current_url anchors).
Proof.
  intros [_ Hcalls] Hin.
  induction anchors as [|link rest IH]; simpl; [by eexists|].
  assert (is_Some (next_by_text current_url rest)) as Hrest
      by (apply IH; intros; apply Hin; by right).
  destruct (get link "href") as [[|c href]|] eqn:Hget; simpl; try exact Hrest.
  destruct (_ || _); [|exact Hrest].
  destruct (anchor_with_href_is_link soup (named "a") link c href) as [Hlink Hitem];
    [apply Hin; by left|done|done|].
  destruct (Hcalls link (c :: href) Hlink Hitem) as (url & -> & _). by eexists.
Qed.

Lemma extract_links_answered page url :
  calls_answered (BeautifulSoup page) url -> is_Some (extract_links page url).
Proof.
  intros Hcalls. unfold extract_links, container_and_heading_links.
  destruct (first_links_answered _ (named "article") url
              (find_all (named "article") (BeautifulSoup page)) (∅, []) Hcalls
              (fun _ Hel => Hel)) as [st1 ->].
  simpl.
  destruct (first_links_answered _ (named_any heading_names) url
              (find_all (named_any heading_names) (BeautifulSoup page)) st1 Hcalls
              (fun _ Hel => Hel)) as [st2 ->].
  simpl.
  destruct (proj1 Hcalls) as [domain ->]. simpl.
  destruct (internal_links_answered _ url domain
              (find_all is_link (BeautifulSoup page)) st2 Hcalls (fun _ Hl => Hl))
    as [st3 Hst3].
  unfold is_link in Hst3. rewrite Hst3. by eexists.
Qed.

Lemma extract_links_calls page url :
  is_Some (extract_links page url) -> calls_answered (BeautifulSoup page) url.
Proof.
  unfold extract_links, container_and_heading_links. intros [links Hrun].
  destruct (first_links url (find_all (named "article") _) _) as [st1|]; [|done].
  simpl in Hrun.
  destruct (first_links url (find_all (named_any _) _) st1) as [st2|]; [|done].
  simpl in Hrun.
  destruct (urlparse_netloc url) as [domain|] eqn:Hdom; [|done]. simpl in Hrun.
  destruct (internal_links _ _ _ st2) as [st3|] eqn:H3; [|done].
  split; [by rewrite Hdom|].
  intros link href Hlink Hhref.
  exact (internal_links_calls _ _ _ _ _ H3 link href Hlink Hhref).
Qed.

Lemma find_next_page_url_answered page url :
  calls_answered (BeautifulSoup page) url -> is_Some (find_next_page_url page url).
Proof.
  intros Hcalls. unfold find_next_page_url.
  assert (is_Some (next_by_text url (find_all (named "a") (BeautifulSoup page))))
    as Htext by (by apply (next_by_text_answered (BeautifulSoup page))).
  destruct (find _ (BeautifulSoup page)) as [button|] eqn:Hfind; [|exact Htext].
  destruct (get button "href") as [[|c href]|] eqn:Hget; simpl; try exact Htext.
  apply find_Some_In in Hfind.
  destruct (anchor_with_href_is_link _ _ button c href Hfind) as [Hlink Hitem];
    [by intros n [? _]%andb_prop|done|].
  rewrite Hitem. simpl.
  destruct (proj2 Hcalls button (c :: href) Hlink Hitem) as (u & -> & _). by eexists.
Qed.

(** X10: on a parsed page, link discovery fails exactly when the URL
    library refuses one of the calls made for the page: the host of the
    base URL, or the join of an [href] of an anchor of the page or the
    host of the URL joined.  And once these calls are answered, the
    search for the next page returns as well: the [href] it joins is one
    of them. *)
Theorem extract_links_returns_iff_calls_answered page url :
  (is_Some (extract_links page url) <-> calls_answered (BeautifulSoup page) url)
  /\ (calls_answered (BeautifulSoup page) url -> is_Some (find_next_page_url page url)).
Proof.
  split; [split|].
  - apply extract_links_calls.
  - apply extract_links_answered.
  - apply find_next_page_url_answered.
Qed.

Section PageContentStops.
Context {World : Type} `{PageFetcher World}.

(** X11: a turn of the crawl loop ends in the [break] of the handler
    when the fetch of the listing page fails, and also when the page
    was fetched and the URL library refuses a call made for it, and in
    no other case; so an anchor of a listing page can stop the crawl.
    A turn that ends so has made no request for an article and leaves
    the records collected and the current URL as they were. *)
Theorem scrape_page_stops_on_fetch_failure_or_refused_url
    (st : crawl World) url w result :
  fetch_page (world st) url = (w, result) ->
  ((scrape_page st url).2 = true
   <-> result = None
       \/ exists page, result = Some page /\ ~ calls_answered (BeautifulSoup page) url)
  /\ ((scrape_page st url).2 = true ->
      world (scrape_page st url).1 = w
      /\ all_data (scrape_page st url).1 = all_data st
      /\ current_url (scrape_page st url).1 = current_url st).
Proof.
  intros Hfetch. unfold scrape_page. rewrite Hfetch.
  destruct result as [page|]; [|split; [split; [by left|done]|done]].
  destruct (extract_links page url) as [article_links|] eqn:Hlinks.
  - assert (calls_answered (BeautifulSoup page) url) as Hcalls
        by (apply extract_links_calls; by rewrite Hlinks).
    destruct (find_next_page_url_answered page url Hcalls) as [next_page ->].
    destruct (match article_links with [] => _ | _ => _ end) as [[w2 data2] out2].
    simpl. split; [|done]. split; [done|].
    intros [[=]|(page' & [= <-] & Hno)]. by destruct Hno.
  - simpl. split; [|done]. split; [|done].
    intros _. right. exists page. split; [done|].
    intros [links' Hl]%extract_links_answered. by rewrite Hlinks in Hl.
Qed.

End PageContentStops.

End Exceptions.

Lemma extract_links_returns_iff_calls_answered_witness :
  is_Some (@extract_links plain_urls listing_page home)
  /\ is_Some (@find_next_page_url plain_urls listing_page home).
Proof.
  assert (@calls_answered plain_urls (BeautifulSoup listing_page) home) as Hcalls.
  { split; [eexists; vm_compute; reflexivity|].
    intros link href Hlink Hhref. vm_compute in Hlink.
    destruct Hlink as [<-|[<-|[<-|[]]]]; vm_compute in Hhref; injection Hhref as <-;
      (eexists; split; [vm_compute; reflexivity|eexists; vm_compute; reflexivity]). }
  split.
  - apply (proj2 (proj1 (@extract_links_returns_iff_calls_answered plain_urls
                           listing_page home))).
    exact Hcalls.
  - apply (proj2 (@extract_links_returns_iff_calls_answered plain_urls
                    listing_page home)).
    exact Hcalls.
Defined.

Lemma scrape_page_stops_on_fetch_failure_or_refused_url_witness :
  (@scrape_page plain_urls _ (served refusing_site) (Crawl [] [] 0 (Some home) []) home).2
  = true.
Proof.
  apply (proj2 (proj1 (@scrape_page_stops_on_fetch_failure_or_refused_url plain_urls
                         _ (served refusing_site) (Crawl [] [] 0 (Some home) []) home
                         [home] (Some bad_link_page) eq_refl))).
  right. exists bad_link_page. split; [reflexivity|].
  intros [_ Hcalls].
  destruct (Hcalls (Tag (py "a") [(py "href", py "http://[bad/")]
                      [NavigableString (py "x")])
              (py "http://[bad/")) as (u & Hjoin & _).
  - vm_compute. left. reflexivity.
  - vm_compute. reflexivity.
  - vm_compute in Hjoin. discriminate.
Defined.

(** ** The next page *)

Section NextPage.
Context `{UrlLib}.

Lemma next_by_text_absent current_url anchors :
  (forall a, In a anchors -> truthy (get a "href") = true -> has_next_text a = false) ->
  next_by_text current_url anchors = Some None.
Proof.
  induction anchors as [|link rest IH]; intros Hno; simpl; [done|].
  destruct (truthy (get link "href")) eqn:Ht; simpl.
  - fold (has_next_text link). rewrite (Hno link) by (by left || done).
    apply IH. intros a Ha. apply Hno. by right.
  - apply IH. intros a Ha. apply Hno. by right.
Qed.

Lemma next_by_text_found current_url anchors u :
  next_by_text current_url anchors = Some (Some u) ->
  exists a href,
    In a anchors /\ get a "href" = Some href /\ href <> []
    /\ has_next_text a = true /\ urljoin current_url href = Some u.
Proof.
  induction anchors as [|link rest IH]; simpl; [done|].
  fold (has_next_text link).
  destruct (truthy (get link "href") && has_next_text link) eqn:Hc.
  - apply andb_prop in Hc as [Ht Hn].
    destruct (get link "href") as [[|c href]|] eqn:Hh; try done. simpl.
    destruct (urljoin current_url (c :: href)) as [u'|] eqn:Hj; [|done].
    simpl. intros [= ->]. exists link, (c :: href). by repeat split; try left.
  - intros (a & href & Ha & ?)%IH. exists a, href. split; [by right|done].
Qed.

(** X12: when no anchor that has a link target carries one of the
    next-page classes or has ["next"] or the arrow in its text, the
    function returns [None], however many other links the page has. *)
Theorem find_next_page_url_none_without_next_anchor page current_url :
  (forall a,
      In a (find_all (named "a") (BeautifulSoup page)) ->
      truthy (get a "href") = true ->
      has_next_class a = false /\ has_next_text a = false) ->
  find_next_page_url page current_url = Some None.
Proof.
  intros Hno. unfold find_next_page_url.
  assert (next_by_text current_url (find_all (named "a") (BeautifulSoup page))
          = Some None) as Htext.
  { apply next_by_text_absent. intros a Ha Ht. by apply Hno. }
  destruct (find _ (BeautifulSoup page)) as [button|] eqn:Hfind; [|done].
  destruct (truthy (get button "href")) eqn:Ht; [|done].
  apply find_Some_In, find_all_In in Hfind as (Hd & Htag & Hb).
  apply andb_prop in Hb as [Hname Hclass].
  destruct (Hno button) as [Hc _]; [by apply find_all_In|done|].
  unfold has_next_class in Hc. by rewrite Hc in Hclass.
Qed.

(** X13: a next page that is returned is the link target, not empty and
    resolved against the current URL, of an anchor of the page that
    carries one of the next-page classes or has ["next"] or the arrow
    in its text. *)
Theorem find_next_page_url_comes_from_a_next_anchor page current_url u :
  find_next_page_url page current_url = Some (Some u) ->
  exists a href,
    In a (find_all (named "a") (BeautifulSoup page))
    /\ get a "href" = Some href /\ href <> []
    /\ (has_next_class a = true \/ has_next_text a = true)
    /\ urljoin current_url href = Some u.
Proof.
  unfold find_next_page_url. intros Hrun.
  assert (Htext : next_by_text current_url (find_all (named "a") (BeautifulSoup page))
                  = Some (Some u) ->
                  exists a href,
                    In a (find_all (named "a") (BeautifulSoup page))
                    /\ get a "href" = Some href /\ href <> []
                    /\ (has_next_class a = true \/ has_next_text a = true)
                    /\ urljoin current_url href = Some u).
  { intros (a & href & ? & ? & ? & ? & ?)%next_by_text_found.
    exists a, href. by repeat split; try right. }
  destruct (find _ (BeautifulSoup page)) as [button|] eqn:Hfind; [|by apply Htext].
  destruct (truthy (get button "href")) eqn:Ht; [|by apply Htext].
  apply find_Some_In, find_all_In in Hfind as (Hd & Htag & Hb).
  apply andb_prop in Hb as [Hname Hclass].
  unfold getitem in Hrun.
  destruct (get button "href") as [[|c href]|] eqn:Hh; try done. simpl in Hrun.
  destruct (urljoin current_url (c :: href)) as [u'|] eqn:Hj; [|done].
  simpl in Hrun. injection Hrun as ->.
  exists button, (c :: href). split; [by apply find_all_In|].
  by repeat split; try left.
Qed.

End NextPage.

Lemma find_next_page_url_none_without_next_anchor_witness :
  @find_next_page_url plain_urls listing_page home = Some None.
Proof.
  apply (@find_next_page_url_none_without_next_anchor plain_urls listing_page home).
  intros a Ha Ht. vm_compute in Ha.
  destruct Ha as [<-|[<-|[<-|[]]]]; split; vm_compute; reflexivity.
Defined.

Lemma find_next_page_url_comes_from_a_next_anchor_witness :
  exists a href,
    In a (find_all (named "a") (BeautifulSoup cyclic_page))
    /\ get a "href" = Some href /\ href <> []
    /\ (has_next_class a = true \/ has_next_text a = true)
    /\ @urljoin plain_urls home href = Some home.
Proof.
  apply (@find_next_page_url_comes_from_a_next_anchor plain_urls cyclic_page home home).
  vm_compute. reflexivity.
Defined.

(** ** The crawl: order, growth and the runs that fetch nothing *)

Section CrawlOrder.
Context `{UrlLib} {World : Type} `{PageFetcher World}.

Lemma records_of_links results :
  List.map Link (records_of results) = fetched_links results.
Proof.
  induction results as [|[link [page|]] rest IH]; [done| |done].
  cbn [records_of fetched_links List.map]. by rewrite IH.
Qed.

Lemma fetched_links_sublist results :
  fetched_links results `sublist_of` List.map fst results.
Proof.
  induction results as [|[link [page|]] rest IH]; simpl; by constructor.
Qed.

Lemma reports_of_length total idx results :
  length (reports_of total idx results) = length results.
Proof.
  revert idx. induction results as [|[link [page|]] rest IH]; intros idx; simpl;
    by rewrite ?IH.
Qed.

Lemma fetch_all_served site requests links :
  (@fetch_all _ (served site) requests links).1 = requests ++ links.
Proof.
  revert requests. induction links as [|link rest IH]; intros requests.
  - by rewrite app_nil_r.
  - cbn [fetch_all]. unfold fetch_page at 1. cbn [served].
    specialize (IH (requests ++ [link])).
    destruct (fetch_all (requests ++ [link]) rest) as [w2 results].
    simpl in *. by rewrite IH, <- app_assoc.
Qed.

(** X14: the loop over the links of a page tries every link once, in
    the order given, whatever the results are: the requests made are
    those of [fetch_all], which on a served site are the links
    themselves added to the requests made before, and one line is
    printed for each.  The records it adds are those of the links whose
    fetch gave a page, no other and none of them left out, in the order
    of the links and each with its link in the [Link] field. *)
Theorem scrape_articles_records_follow_links
    total idx article_links (w : World) data out :
  List.map fst (fetch_all w article_links).2 = article_links
  /\ (scrape_articles total idx article_links w data out).1.1
     = (fetch_all w article_links).1
  /\ (scrape_articles total idx article_links w data out).1.2
     = data ++ records_of (fetch_all w article_links).2
  /\ List.map Link (scrape_articles total idx article_links w data out).1.2
     = List.map Link data ++ fetched_links (fetch_all w article_links).2
  /\ fetched_links (fetch_all w article_links).2 `sublist_of` article_links
  /\ (scrape_articles total idx article_links w data out).2
     = out ++ reports_of total idx (fetch_all w article_links).2
  /\ length (scrape_articles total idx article_links w data out).2
     = (length out + length article_links)%nat
  /\ (forall site requests,
        (@scrape_articles _ (served site) total idx article_links requests data out).1.1
        = requests ++ article_links).
Proof.
  pose proof (fetch_all_links w article_links) as Hlinks.
  pose proof (fetched_links_sublist (fetch_all w article_links).2) as Hsub.
  rewrite Hlinks in Hsub.
  rewrite scrape_articles_fetch_all.
  destruct (fetch_all w article_links) as [w' results]. cbn [fst snd] in *.
  split; [done|]. split; [done|]. split; [done|].
  split; [by rewrite List.map_app, records_of_links|].
  split; [done|]. split; [done|].
  split.
  - by rewrite length_app, reports_of_length, <- Hlinks, length_map.
  - intros site requests. rewrite scrape_articles_fetch_all.
    pose proof (fetch_all_served site requests article_links) as Hserved.
    destruct (fetch_all requests article_links) as [w2 results2]. done.
Qed.


(** X16: with a page ceiling of zero, or with an empty start URL, the
    run makes no request at all and writes the header line only. *)
Theorem scrape_activities_without_a_page fuel cfg (w : World) :
  MAX_PAGES cfg = Some 0%nat \/ BASE_URL cfg = [] ->
  scrape_activities fuel cfg w
  = Some (Crawl w [] 0 (Some (BASE_URL cfg)) [],
          [[py "Title"; py "Date"; py "Description"; py "Link"]]).
Proof.
  intros Hcfg. unfold scrape_activities.
  assert (goes_on cfg (Crawl w [] 0 (Some (BASE_URL cfg)) []) = false) as Hgo.
  { unfold goes_on. cbn [current_url page_num]. destruct Hcfg as [-> | ->].
    - change (Nat.ltb 0 0) with false. apply andb_false_r.
    - reflexivity. }
  destruct fuel; cbn [scrape_loop]; rewrite Hgo; reflexivity.
Qed.

End CrawlOrder.


Lemma scrape_activities_without_a_page_witness :
  @scrape_activities plain_urls _ (served partial_site) 3 (Config home (Some 0%nat)) []
  = Some (Crawl [] [] 0 (Some (BASE_URL (Config home (Some 0%nat)))) [],
          [[py "Title"; py "Date"; py "Description"; py "Link"]]).
Proof.
  apply (@scrape_activities_without_a_page plain_urls _ (served partial_site) 3
           (Config home (Some 0%nat)) []).
  left. reflexivity.
Defined.

(** ** The description and the start of the crawl *)

(** X17: a description given in the page's [meta] element wins over
    every paragraph: when the first [meta] named [description] has a
    content that is not empty once cleaned, that cleaned content is the
    description of the record. *)
Theorem meta_description_takes_precedence page article_url m content :
  find (fun n => named "meta" n && attr_is "name" (py "description") n)
    (BeautifulSoup page) = Some m ->
  get m "content" = Some content ->
  clean_text (Some content) <> [] ->
  Description (extract_article_data page article_url) = clean_text (Some content).
Proof.
  intros Hfind Hget Hne.
  unfold extract_article_data, extract_summary. cbn [Description].
  rewrite Hfind. unfold getitem. rewrite Hget.
  assert (truthy (Some content) = true) as ->.
  { destruct content; [|done]. by destruct Hne. }
  by destruct (clean_text (Some content)).
Qed.

Section CrawlStart.
Context `{UrlLib} {World : Type} `{PageFetcher World}.

Lemma scrape_loop_counts_pages fuel cfg (st st' : crawl World) :
  scrape_loop fuel cfg st = Some st' ->
  listing_pages (printed st) `prefix_of` listing_pages (printed st')
  /\ (length (listing_pages (printed st')) + page_num st
      = length (listing_pages (printed st)) + page_num st')%nat.
Proof.
  revert st. induction fuel as [|fuel IH]; intros st; simpl.
  - destruct (goes_on cfg st); [done|]. by intros [= <-].
  - destruct (goes_on cfg st); [|by intros [= <-]].
    destruct (current_url st) as [url|]; [|by intros [= <-]].
    pose proof (scrape_page_spec st url) as (Hp & Hl & _).
    destruct (scrape_page st url) as [st1 stop]. simpl in Hp, Hl.
    destruct stop.
    + intros [= <-]. rewrite Hl, length_app. simpl.
      split; [by apply prefix_app_r|lia].
    + intros [H1 H2]%IH. rewrite Hl, length_app in H2. simpl in H2.
      split; [|lia]. etrans; [|exact H1]. rewrite Hl. by apply prefix_app_r.
Qed.

(** X18: in a run that ends, the listing pages reported are as many as
    the page count says, and the first of them, if any page was
    processed, is the start URL of the configuration. *)
Theorem scrape_activities_starts_at_base_url fuel cfg (w : World) st rows :
  scrape_activities fuel cfg w = Some (st, rows) ->
  length (listing_pages (printed st)) = page_num st
  /\ (page_num st <> 0%nat -> head (listing_pages (printed st)) = Some (BASE_URL cfg)).
Proof.
  unfold scrape_activities.
  destruct (scrape_loop fuel cfg _) as [st0|] eqn:Hrun; [|done].
  cbn [mbind option_bind]. intros [= <- _].
  pose proof (scrape_loop_counts_pages _ _ _ _ Hrun) as [_ Hcount].
  cbn [printed page_num listing_pages length] in Hcount.
  split; [lia|]. intros Hpages.
  destruct fuel as [|fuel]; cbn [scrape_loop] in Hrun.
  { destruct (goes_on cfg _); [done|]. injection Hrun as <-. done. }
  destruct (goes_on cfg _); [|injection Hrun as <-; done].
  cbn [current_url] in Hrun.
  pose proof (scrape_page_spec (Crawl w [] 0 (Some (BASE_URL cfg)) []) (BASE_URL cfg))
    as (_ & Hl & _).
  destruct (scrape_page _ (BASE_URL cfg)) as [st1 stop].
  cbn [fst printed listing_pages app] in Hl.
  destruct stop.
  - injection Hrun as <-. by rewrite Hl.
  - apply scrape_loop_counts_pages in Hrun as [[more Hmore] _].
    rewrite Hmore, Hl. done.
Qed.

End CrawlStart.

Lemma meta_description_takes_precedence_witness :
  Description
    (extract_article_data
       (document [Tag (py "meta") [(py "name", py "description");
                                   (py "content", py " Open  day ")] [];
                  Tag (py "p") [] [NavigableString (py "First paragraph")]])
       article_1)
  = clean_text (Some (py " Open  day ")).
Proof.
  apply (meta_description_takes_precedence _ article_1
           (Tag (py "meta") [(py "name", py "description");
                             (py "content", py " Open  day ")] [])).
  - vm_compute. reflexivity.
  - vm_compute. reflexivity.
  - vm_compute. discriminate.
Defined.

Lemma scrape_activities_starts_at_base_url_witness :
  length (listing_pages
            [ProcessingPage 1 home; FoundArticles 2; ArticleFailed 1 2;
             ArticleOK 2 2; NoNextPage]) = 1%nat
  /\ (1%nat <> 0%nat ->
      head (listing_pages
              [ProcessingPage 1 home; FoundArticles 2; ArticleFailed 1 2;
               ArticleOK 2 2; NoNextPage]) = Some (BASE_URL configuration)).
Proof.
  apply (@scrape_activities_starts_at_base_url plain_urls _ (served partial_site)
           5 configuration []
           (Crawl [home; article_1; article_2]
              [Article (py "Two") (py "2024-03-15") (py "Held on March 15, 2024.")
                 article_2]
              1 None
              [ProcessingPage 1 home; FoundArticles 2; ArticleFailed 1 2;
               ArticleOK 2 2; NoNextPage])
           [[py "Title"; py "Date"; py "Description"; py "Link"];
            [py "Two"; py "2024-03-15"; py "Held on March 15, 2024."; article_2]]).
  vm_compute. reflexivity.
Defined.
